(** * models/xlmr.py: the feature builder, the span pooler and the feature
    merger of [XLMRModel], embedded as Rocq functions.

    Python lists are [list], the configuration dictionary [local_config]
    is a record (every key is required), the two small dictionaries of
    [convert_dataset_to_features] are [gmap]s, and a raised exception is
    the [Err] branch of [result].  The sub-word tokenizer and the
    arithmetic of tensor elements are external to the file: they are the
    fields of [Tokenizer] and of the class [TensorOps]. *)

From Stdlib Require Import ZArith QArith.QArith_base String Ascii.
From stdpp Require Import base option list strings gmap.

Local Open Scope Z_scope.

(** ** Exceptions *)

Inductive exn : Type :=
  | KeyError (key : string)
  | IndexError
  | AssertionError (msg : string)
  | ZeroDivisionError
  | ValueError (msg : string)
  | UnboundLocalError (name : string)
  | TorchError (msg : string).

Inductive result (A : Type) : Type :=
  | Ok (a : A)
  | Err (e : exn).
Arguments Ok {A} a.
Arguments Err {A} e.

#[global] Instance result_ret : MRet result := fun A a => Ok a.
#[global] Instance result_bind : MBind result := fun A B f m =>
  match m with
  | Ok a => f a
  | Err e => Err e
  end.

(** [d[k]] on a dictionary. *)
Definition dict_get {V} (d : gmap string V) (k : string) : result V :=
  match d !! k with
  | Some v => Ok v
  | None => Err (KeyError k)
  end.

(** A loop [for x in l: body] over a state, left at the first exception. *)
Fixpoint for_each {A S} (body : A -> S -> result S) (l : list A) (st : S)
  : result S :=
  match l with
  | [] => Ok st
  | x :: l' =>
      match body x st with
      | Ok st' => for_each body l' st'
      | Err e => Err e
      end
  end.

(** [enumerate(l)] *)
Definition enumerate {A} (l : list A) : list (nat * A) :=
  imap (fun i x => (i, x)) l.

(** ** Python slices *)

(** The bound [i] of a slice of a sequence of length [n]: a negative bound
    counts from the end, and every bound is clamped to [0..n]. *)
Definition py_bound (n : nat) (i : Z) : nat :=
  if i <? 0 then Z.to_nat (Z.max 0 (Z.of_nat n + i))
  else Nat.min (Z.to_nat i) n.

(** [s[lo:hi]], [s[:hi]] and [s[lo:]] on a string *)
Definition str_slice (s : string) (lo hi : Z) : string :=
  let n := String.length s in
  substring (py_bound n lo) (py_bound n hi - py_bound n lo) s.
Definition str_upto (s : string) (hi : Z) : string :=
  substring 0 (py_bound (String.length s) hi) s.
Definition str_from (s : string) (lo : Z) : string :=
  let n := String.length s in
  substring (py_bound n lo) (n - py_bound n lo) s.

(** [l[:hi]] on a list *)
Definition list_upto {A} (l : list A) (hi : Z) : list A :=
  take (py_bound (length l) hi) l.

(** Truth value of a string: [if s:] *)
Definition truthy (s : string) : bool :=
  match s with
  | EmptyString => false
  | String _ _ => true
  end.

(** ** The tokenizer, the configuration and the examples *)

(** [XLMRobertaTokenizer], as far as this file uses it. *)
Record Tokenizer : Type := {
  tokenize : string -> list string;
  convert_tokens_to_ids : list string -> list Z;
  cls_token : string;
  sep_token : string;
  mask_token : string;
  pad_token : string
}.

(** [convert_tokens_to_ids] gives one id per token. *)
Definition ids_per_token (tok : Tokenizer) : Prop :=
  forall ts, length (convert_tokens_to_ids tok ts) = length ts.

(** [local_config] *)
Record LocalConfig : Type := {
  model_name : string;
  max_seq_len : Z;
  pool_type : string;
  target_embeddings : string;
  mask_syns : bool;
  symmetric : bool;
  train_scd : bool;
  loss : string;
  syns : list string
}.

(** An example of the corpus; [start_1 .. end_2] are the fields after
    [int(...)]. *)
Record Example : Type := {
  pos : string;
  label : string;
  score : Q;
  start_1 : Z;
  end_1 : Z;
  text_1 : string;
  start_2 : Z;
  end_2 : Z;
  text_2 : string
}.

(** [syn_label]: the categorical id, or the score when [train_scd]. *)
Inductive SynLabel : Type :=
  | LabelId (n : Z)
  | LabelScore (q : Q).

Record WiCFeature2 : Type := {
  input_ids : list Z;
  input_mask : list Z;
  token_type_ids : list Z;
  syn_label : SynLabel;
  positions : list nat;
  example : Example
}.

(** ** convert_dataset_to_features *)

Definition syn_label_to_id : gmap string Z :=
  <["F"%string := 0]> (<["T"%string := 1]> ∅).

(** [{lab: i for i, lab in enumerate(syns)}]: a later entry replaces an
    earlier one with the same label. *)
Definition syns_lab_to_pos (syns : list string) : gmap string nat :=
  foldl (fun d il => <[il.2 := il.1]> d) ∅ (enumerate syns).

(** One orientation: [(st1, end1, sent1, st2, end2, sent2)]. *)
Record Orientation : Type := {
  o_st1 : Z; o_end1 : Z; o_sent1 : string;
  o_st2 : Z; o_end2 : Z; o_sent2 : string
}.

Definition role_A_first (ex : Example) : Orientation :=
  {| o_st1 := start_1 ex; o_end1 := end_1 ex; o_sent1 := text_1 ex;
     o_st2 := start_2 ex; o_end2 := end_2 ex; o_sent2 := text_2 ex |}.
Definition role_B_first (ex : Example) : Orientation :=
  {| o_st1 := start_2 ex; o_end1 := end_2 ex; o_sent1 := text_2 ex;
     o_st2 := start_1 ex; o_end2 := end_1 ex; o_sent2 := text_1 ex |}.

(** The list the inner loop enumerates. *)
Definition orientations (ex : Example) : list Orientation :=
  [role_A_first ex; role_B_first ex].

(** The tokens of a span: the sub-tokens, or as many mask tokens. *)
Definition span_tokens (cfg : LocalConfig) (tok : Tokenizer) (target : string)
  : list string :=
  let target_subtokens := tokenize tok target in
  if mask_syns cfg then replicate (length target_subtokens) (mask_token tok)
  else target_subtokens.

(** Lines 173-202: the token sequence and the position table of one
    orientation.  The slots written are inside the table, whose length is
    [2 * len(syns)]. *)
Definition build_tokens (cfg : LocalConfig) (tok : Tokenizer) (o : Orientation)
  : result (list string * list nat) :=
  let lab_to_pos := syns_lab_to_pos (syns cfg) in
  let tokens := [cls_token tok] in
  let positions := replicate (2 * length (syns cfg)) 0%nat in
  let left1 := str_upto (o_sent1 o) (o_st1 o) in
  let target1 := str_slice (o_sent1 o) (o_st1 o) (o_end1 o) in
  let right1 := str_from (o_sent1 o) (o_end1 o) in
  let left2 := str_upto (o_sent2 o) (o_st2 o) in
  let target2 := str_slice (o_sent2 o) (o_st2 o) (o_end2 o) in
  let right2 := str_from (o_sent2 o) (o_end2 o) in
  let tokens := if truthy left1 then tokens ++ tokenize tok left1 else tokens in
  t ← dict_get lab_to_pos "Target";
  let positions := <[(t * 2)%nat := length tokens]> positions in
  let tokens := tokens ++ span_tokens cfg tok target1 in
  let positions := <[(t * 2 + 1)%nat := length tokens]> positions in
  let tokens :=
    if truthy right1 then tokens ++ (tokenize tok right1 ++ [sep_token tok])
    else tokens in
  let tokens := if truthy left2 then tokens ++ tokenize tok left2 else tokens in
  s ← dict_get lab_to_pos "Synonym";
  let positions := <[(s * 2)%nat := length tokens]> positions in
  let tokens := tokens ++ span_tokens cfg tok target2 in
  let positions := <[(s * 2 + 1)%nat := length tokens]> positions in
  let tokens :=
    if truthy right2 then tokens ++ (tokenize tok right2 ++ [sep_token tok])
    else tokens in
  Ok (tokens, positions).

(** The accumulators of the pass. *)
Record BuilderState : Type := {
  features : list WiCFeature2;
  num_too_long_exs : nat
}.

Definition initial_state : BuilderState :=
  {| features := []; num_too_long_exs := 0 |}.

(** [convert_tokens_to_ids([pad_token])[0]] *)
Definition pad_id (tok : Tokenizer) : result Z :=
  match convert_tokens_to_ids tok [pad_token tok] with
  | x :: _ => Ok x
  | [] => Err IndexError
  end.

(** Lines 234-256: the label of the record; the assertion is evaluated
    when a record is about to be appended. *)
Definition record_label (cfg : LocalConfig) (ex : Example) : result SynLabel :=
  if train_scd cfg then
    if String.eqb (loss cfg) "mse_loss" then Ok (LabelScore (score ex))
    else Err (AssertionError "should be mse loss when training scd")
  else
    n ← dict_get syn_label_to_id (label ex);
    Ok (LabelId n).

(** Lines 211-215 and 237-255: mask, padding and the record, for the ids
    that are kept.  [[x] * k] is empty for a negative [k]. *)
Definition make_record (cfg : LocalConfig) (ex : Example) (ids : list Z)
    (table : list nat) (p : Z) (lab : SynLabel) : WiCFeature2 :=
  let msl := max_seq_len cfg in
  let mask := replicate (length ids) 1 in
  let type_ids := replicate (Z.to_nat msl) 0 in
  let padding := replicate (Z.to_nat (msl - Z.of_nat (length ids))) p in
  {| input_ids := ids ++ padding;
     input_mask := mask ++ replicate (length padding) 0;
     token_type_ids := type_ids; syn_label := lab;
     positions := table; example := ex |}.

(** Lines 211-256: the pad id is looked up, the label is chosen and the
    record is appended. *)
Definition append_record (cfg : LocalConfig) (tok : Tokenizer) (ex : Example)
    (ids : list Z) (table : list nat) (st : BuilderState)
  : result BuilderState :=
  p ← pad_id tok;
  lab ← record_label cfg ex;
  Ok {| features := features st ++ [make_record cfg ex ids table p lab];
        num_too_long_exs := num_too_long_exs st |}.

Definition count_too_long (st : BuilderState) : BuilderState :=
  {| features := features st; num_too_long_exs := S (num_too_long_exs st) |}.

(** Lines 172-256: the body of the inner loop for an orientation that is
    not skipped.  [max(positions)] is taken over a table that is not empty,
    since the role "Target" was found in [syns]. *)
Definition encode_orientation (cfg : LocalConfig) (tok : Tokenizer)
    (ex : Example) (o : Orientation) (st : BuilderState)
  : result BuilderState :=
  tp ← build_tokens cfg tok o;
  let ids := convert_tokens_to_ids tok tp.1 in
  if max_seq_len cfg <? Z.of_nat (length ids) then
    let ids' := list_upto ids (max_seq_len cfg) in
    let st' := count_too_long st in
    if max_seq_len cfg - 1 <? Z.of_nat (max_list tp.2) then Ok st'
    else append_record cfg tok ex ids' tp.2 st'
  else append_record cfg tok ex ids tp.2 st.

(** Lines 169-171: the inner loop with its guard. *)
Definition orientation_step (cfg : LocalConfig) (tok : Tokenizer)
    (ex : Example) (io : nat * Orientation) (st : BuilderState)
  : result BuilderState :=
  if negb (symmetric cfg) && Nat.eqb io.1 0 then Ok st
  else encode_orientation cfg tok ex io.2 st.

Definition example_step (cfg : LocalConfig) (tok : Tokenizer)
    (ex : Example) (st : BuilderState) : result BuilderState :=
  for_each (orientation_step cfg tok ex) (enumerate (orientations ex)) st.

(** Lines 158-256: the pass over the corpus. *)
Definition build_features (cfg : LocalConfig) (tok : Tokenizer)
    (examples : list Example) : result BuilderState :=
  for_each (example_step cfg tok) examples initial_state.

(** Line 257: [num_too_long_exs / len(features) * 100.0]; the quotient is
    kept as an exact fraction. *)
Definition not_fitted_percentage (st : BuilderState) : result Q :=
  match length (features st) with
  | O => Err ZeroDivisionError
  | S n =>
      Ok (Qmake (Z.of_nat (num_too_long_exs st) * 100) (Pos.of_succ_nat n))
  end.

Definition convert_dataset_to_features (cfg : LocalConfig) (tok : Tokenizer)
    (examples : list Example) : result (list WiCFeature2) :=
  st ← build_features cfg tok examples;
  _ ← not_fitted_percentage st;
  Ok (features st).

(** ** __init__: the input width of the classification head *)

Record RobertaClassificationHead : Type := {
  dense_in : nat;
  dense_out : nat;
  out_proj_out : nat
}.

(** Lines 67-73. *)
Definition head_input_size (cfg : LocalConfig) (hidden_size : nat) : nat :=
  let input_size := hidden_size in
  let input_size :=
    if String.eqb (pool_type cfg) "combined" then (input_size * 3)%nat
    else input_size in
  if String.eqb (target_embeddings cfg) "concat" then (input_size * 2)%nat
  else if String.eqb (target_embeddings cfg) "combined" then (input_size * 3)%nat
  else input_size.

(** Lines 75-78: [syn_clf], which stays unset for any other loss. *)
Definition init_syn_clf (cfg : LocalConfig) (hidden_size : nat)
  : option RobertaClassificationHead :=
  let input_size := head_input_size cfg hidden_size in
  if String.eqb (loss cfg) "mse_loss" then
    Some {| dense_in := input_size; dense_out := hidden_size;
            out_proj_out := 1 |}
  else if String.eqb (loss cfg) "crossentropy_loss" then
    Some {| dense_in := input_size; dense_out := hidden_size;
            out_proj_out := 2 |}
  else None.

(** ** extract_features *)

(** The arithmetic of tensor elements: product, quotient, the mean and
    the maximum of a column, and the norm of a vector. *)
Class TensorOps (T : Type) : Type := {
  t_mul : T -> T -> T;
  t_div : T -> T -> T;
  t_mean : list T -> T;
  t_max : list T -> T;
  t_norm : list T -> T
}.

Section ExtractFeatures.
Context {T : Type} `{TensorOps T}.

(** [hidden_states]: [bs x seq x hidden], with its [size()]. *)
Record Tensor3 : Type := {
  t_bs : nat;
  t_seq : nat;
  t_hs : nat;
  t_data : list (list (list T))
}.

Definition well_shaped (h : Tensor3) : Prop :=
  length (t_data h) = t_bs h /\
  Forall (fun m => length m = t_seq h /\
                   Forall (fun row => length row = t_hs h) m) (t_data h).

(** [m[start:end]] on the rows of one example *)
Definition rows_slice (m : list (list T)) (start end_ : nat)
  : list (list T) :=
  drop start (take end_ m).

Definition column (j : nat) (m : list (list T)) : list T :=
  omap (fun row => row !! j) m.

(** [.mean(dim=0)] *)
Definition mean_dim0 (hs : nat) (m : list (list T)) : list T :=
  map (fun j => t_mean (column j m)) (seq 0 hs).

(** [.max(dim=0)]: refused by torch on a slice with no row *)
Definition max_dim0 (hs : nat) (m : list (list T)) : result (list T) :=
  match m with
  | [] => Err (TorchError "max over an empty dimension")
  | _ :: _ => Ok (map (fun j => t_max (column j m)) (seq 0 hs))
  end.

(** [m[i]] *)
Definition row_at (m : list (list T)) (i : nat) : result (list T) :=
  match m !! i with
  | Some row => Ok row
  | None => Err IndexError
  end.

(** Lines 127-141: the two pooled span vectors. *)
Definition pool_spans (pool_type : string) (hs : nat) (m : list (list T))
    (start1 end1 start2 end2 : nat) : result (list T * list T) :=
  if String.eqb pool_type "mean" then
    Ok (mean_dim0 hs (rows_slice m start1 end1),
        mean_dim0 hs (rows_slice m start2 end2))
  else if String.eqb pool_type "max" then
    emb1 ← max_dim0 hs (rows_slice m start1 end1);
    emb2 ← max_dim0 hs (rows_slice m start2 end2);
    Ok (emb1, emb2)
  else if String.eqb pool_type "first" then
    emb1 ← row_at m start1;
    emb2 ← row_at m start2;
    Ok (emb1, emb2)
  else if String.prefix "combined" pool_type then
    let combine embs :=
      mx ← max_dim0 hs embs;
      fst_row ← row_at embs 0;
      Ok (mean_dim0 hs embs ++ mx ++ fst_row) in
    emb1 ← combine (rows_slice m start1 end1);
    emb2 ← combine (rows_slice m start2 end2);
    Ok (emb1, emb2)
  else Err (ValueError ("wrong pool_type: " +:+ pool_type)).

Definition normalized (emb : list T) : list T :=
  map (fun x => t_div x (t_norm emb)) emb.

(** Lines 142-150: the merged vector.  The chain has no [else]: with
    another name [merged_feature] is not bound when line 150 reads it.
    The two vectors come from the same pooling, so they are equally
    wide wherever the product is taken. *)
Definition merge (merge_type : string) (emb1 emb2 : list T)
  : result (list T) :=
  if String.eqb merge_type "featwise_mul" then
    Ok (zip_with t_mul emb1 emb2)
  else if String.eqb merge_type "concat" then
    Ok (emb1 ++ emb2)
  else if String.eqb merge_type "featwise_mul_norm" then
    Ok (zip_with t_mul (normalized emb1) (normalized emb2))
  else if String.prefix "combined" merge_type then
    Ok (emb1 ++ emb2 ++ zip_with t_mul emb1 emb2)
  else Err (UnboundLocalError "merged_feature").

(** [positions[ex_id, k].item()] *)
Definition item (positions : list (list nat)) (ex_id k : nat) : result nat :=
  match positions !! ex_id with
  | Some row =>
      match row !! k with
      | Some p => Ok p
      | None => Err IndexError
      end
  | None => Err IndexError
  end.

(** [hidden_states[ex_id]] *)
Definition example_rows (hidden_states : Tensor3) (ex_id : nat)
  : result (list (list T)) :=
  match t_data hidden_states !! ex_id with
  | Some m => Ok m
  | None => Err IndexError
  end.

(** Lines 126-150: the body of the loop over the batch. *)
Definition extract_example (cfg : LocalConfig) (hidden_states : Tensor3)
    (positions : list (list nat)) (ex_id : nat)
    (features : list (list T)) : result (list (list T)) :=
  start1 ← item positions ex_id 0;
  end1 ← item positions ex_id 1;
  start2 ← item positions ex_id 2;
  end2 ← item positions ex_id 3;
  m ← example_rows hidden_states ex_id;
  embs ← pool_spans (pool_type cfg) (t_hs hidden_states) m
           start1 end1 start2 end2;
  merged_feature ← merge (target_embeddings cfg) embs.1 embs.2;
  Ok (features ++ [merged_feature]).

(** Lines 120-152; [torch.cat] refuses an empty list of tensors. *)
Definition extract_features (cfg : LocalConfig) (hidden_states : Tensor3)
    (positions : list (list nat)) : result (list (list T)) :=
  features ← for_each (extract_example cfg hidden_states positions)
               (seq 0 (t_bs hidden_states)) [];
  match features with
  | [] => Err (TorchError "cat of an empty list")
  | _ :: _ => Ok features
  end.
End ExtractFeatures.

Arguments Tensor3 T : clear implicits.


(** ** Notions used by the statements *)

(** The configuration [c] with other pooling and merge strategies. *)
Definition with_strategies (c : LocalConfig) (pt mt : string) : LocalConfig :=
  {| model_name := model_name c; max_seq_len := max_seq_len c;
     pool_type := pt; target_embeddings := mt;
     mask_syns := mask_syns c; symmetric := symmetric c;
     train_scd := train_scd c; loss := loss c; syns := syns c |}.

(** The ids that stay after line 206. *)
Definition kept_ids (cfg : LocalConfig) (ids : list Z) : list Z :=
  if max_seq_len cfg <? Z.of_nat (length ids)
  then list_upto ids (max_seq_len cfg) else ids.

(** [r] is the record that the orientation [o] of [ex] appends. *)
Definition emits (cfg : LocalConfig) (tok : Tokenizer) (ex : Example)
    (o : Orientation) (r : WiCFeature2) : Prop :=
  exists tokens table p lab,
    build_tokens cfg tok o = Ok (tokens, table) /\
    pad_id tok = Ok p /\
    record_label cfg ex = Ok lab /\
    (max_seq_len cfg < Z.of_nat (length (convert_tokens_to_ids tok tokens)) ->
     Z.of_nat (max_list table) <= max_seq_len cfg - 1) /\
    r = make_record cfg ex (kept_ids cfg (convert_tokens_to_ids tok tokens))
          table p lab.

(** The orientations that the guard of line 170 lets through. *)
Definition encoded_orientations (cfg : LocalConfig) (ex : Example)
  : list Orientation :=
  if symmetric cfg then [role_A_first ex; role_B_first ex]
  else [role_B_first ex].

(** [r] comes from an orientation of the corpus that the guard lets
    through. *)
Definition from_corpus (cfg : LocalConfig) (tok : Tokenizer)
    (examples : list Example) (r : WiCFeature2) : Prop :=
  exists ex o, ex ∈ examples /\ o ∈ encoded_orientations cfg ex /\
               emits cfg tok ex o r.

(** A table of [n] roles after lines 181, 187, 194 and 200, where "Target"
    is role [t] and "Synonym" is role [s]. *)
Definition written_table (n t s a b c d : nat) : list nat :=
  <[(s * 2 + 1)%nat := d]> (<[(s * 2)%nat := c]>
    (<[(t * 2 + 1)%nat := b]> (<[(t * 2)%nat := a]>
       (replicate (2 * n) 0%nat)))).

(** The start and end slots of a role in a position table. *)
Definition span_pair (cfg : LocalConfig) (table : list nat) (role : string)
  : option (nat * nat) :=
  k ← syns_lab_to_pos (syns cfg) !! role;
  a ← table !! (k * 2)%nat;
  b ← table !! (k * 2 + 1)%nat;
  Some (a, b).

(** The width of a pooled span vector and of a merged vector, as
    [extract_features] produces them from a hidden size [hs]. *)
Definition pooled_width (pool_type : string) (hs : nat) : nat :=
  if String.eqb pool_type "mean" || String.eqb pool_type "max"
     || String.eqb pool_type "first"
  then hs else (3 * hs)%nat.
Definition merged_width (merge_type : string) (w : nat) : nat :=
  if String.eqb merge_type "featwise_mul"
     || String.eqb merge_type "featwise_mul_norm" then w
  else if String.eqb merge_type "concat" then (2 * w)%nat
  else (3 * w)%nat.

(** ** A small tokenizer, configuration and corpus to run the functions on *)

Module Toy.

(** Words separated by blanks. *)
Fixpoint split_words (s cur : string) : list string :=
  match s with
  | EmptyString => if truthy cur then [cur] else []
  | String c s' =>
      if Ascii.eqb c " " then
        (if truthy cur then cur :: split_words s' "" else split_words s' "")
      else split_words s' (cur +:+ String c "")
  end.

Fixpoint char_sum (s : string) : Z :=
  match s with
  | EmptyString => 0
  | String c s' => Z.of_nat (nat_of_ascii c) + char_sum s'
  end.

Definition token_id (t : string) : Z :=
  if String.eqb t "<s>" then 0
  else if String.eqb t "<pad>" then 1
  else if String.eqb t "</s>" then 2
  else if String.eqb t "<mask>" then 250001
  else 4 + char_sum t.

Definition tok : Tokenizer :=
  {| tokenize := fun s => split_words s "";
     convert_tokens_to_ids := map token_id;
     cls_token := "<s>"; sep_token := "</s>";
     mask_token := "<mask>"; pad_token := "<pad>" |}.

Definition cfg (msl : Z) : LocalConfig :=
  {| model_name := "xlm-roberta-large"; max_seq_len := msl;
     pool_type := "first"; target_embeddings := "concat";
     mask_syns := false; symmetric := false; train_scd := false;
     loss := "crossentropy_loss"; syns := ["Target"; "Synonym"] |}.

Definition with_symmetric (c : LocalConfig) : LocalConfig :=
  {| model_name := model_name c; max_seq_len := max_seq_len c;
     pool_type := pool_type c; target_embeddings := target_embeddings c;
     mask_syns := mask_syns c; symmetric := true;
     train_scd := train_scd c; loss := loss c; syns := syns c |}.

Definition with_train_scd (c : LocalConfig) : LocalConfig :=
  {| model_name := model_name c; max_seq_len := max_seq_len c;
     pool_type := pool_type c; target_embeddings := target_embeddings c;
     mask_syns := mask_syns c; symmetric := symmetric c;
     train_scd := true; loss := loss c; syns := syns c |}.

Definition with_mask_syns (c : LocalConfig) : LocalConfig :=
  {| model_name := model_name c; max_seq_len := max_seq_len c;
     pool_type := pool_type c; target_embeddings := target_embeddings c;
     mask_syns := true; symmetric := symmetric c;
     train_scd := train_scd c; loss := loss c; syns := syns c |}.

Definition with_syns (c : LocalConfig) (roles : list string) : LocalConfig :=
  {| model_name := model_name c; max_seq_len := max_seq_len c;
     pool_type := pool_type c; target_embeddings := target_embeddings c;
     mask_syns := mask_syns c; symmetric := symmetric c;
     train_scd := train_scd c; loss := loss c; syns := roles |}.

(** "The cat sat" with the span of "cat", "A dog ran" with the span of
    "dog". *)
Definition ex_cat_dog : Example :=
  {| pos := "NOUN"; label := "T"; score := Qmake 1 2;
     start_1 := 4; end_1 := 7; text_1 := "The cat sat";
     start_2 := 2; end_2 := 5; text_2 := "A dog ran" |}.

(** Both spans end their sentence. *)
Definition ex_at_end : Example :=
  {| pos := "NOUN"; label := "F"; score := Qmake 1 4;
     start_1 := 2; end_1 := 5; text_1 := "a cat";
     start_2 := 2; end_2 := 5; text_2 := "a dog" |}.

(** An example with a label that is neither "T" nor "F". *)
Definition ex_unlabelled : Example :=
  {| pos := "NOUN"; label := "?"; score := Qmake 1 4;
     start_1 := 2; end_1 := 5; text_1 := "a cat";
     start_2 := 2; end_2 := 5; text_2 := "a dog" |}.

(** The second sentence goes on after its span. *)
Definition ex_tail : Example :=
  {| pos := "NOUN"; label := "F"; score := Qmake 1 4;
     start_1 := 2; end_1 := 5; text_1 := "a cat sat";
     start_2 := 2; end_2 := 5; text_2 := "a dog" |}.

(** The record of [ex_cat_dog] with 16 positions; "A dog ran" comes
    first in it. *)
Definition rec_cat_dog : WiCFeature2 :=
  make_record (cfg 16) ex_cat_dog
    (map token_id
       ["<s>"; "A"; "dog"; "ran"; "</s>"; "The"; "cat"; "sat"; "</s>"])
    [2; 3; 6; 7]%nat 1 (LabelId 1).

(** The record of [ex_tail] with 6 positions: seven tokens cut to six. *)
Definition rec_tail : WiCFeature2 :=
  make_record (cfg 6) ex_tail
    (map token_id ["<s>"; "a"; "dog"; "a"; "cat"; "sat"])
    [2; 3; 4; 5]%nat 1 (LabelId 0).

(** The record of [ex_cat_dog] when a third role sits between the two. *)
Definition rec_three_roles : WiCFeature2 :=
  make_record (cfg 16) ex_cat_dog
    (map token_id
       ["<s>"; "A"; "dog"; "ran"; "</s>"; "The"; "cat"; "sat"; "</s>"])
    [2; 3; 0; 0; 6; 7]%nat 1 (LabelId 1).

#[global] Instance Z_ops : TensorOps Z :=
  {| t_mul := Z.mul;
     t_div := Z.div;
     t_mean := fun l => foldr Z.add 0 l / Z.of_nat (length l);
     t_max := fun l => foldr Z.max (default 0 (head l)) l;
     t_norm := fun l => Z.sqrt (foldr Z.add 0 (map (fun x => x * x) l)) |}.

(** One example, three positions, two features per position. *)
Definition hidden : Tensor3 Z :=
  {| t_bs := 1; t_seq := 3; t_hs := 2;
     t_data := [ [ [1; 2]; [3; 4]; [5; 6] ] ] |}.

Definition table : list (list nat) := [ [0; 1; 1; 3]%nat ].

End Toy.

(** ** forward *)

(** What [forward] raises: the subscript of [None], a module attribute
    that was never set, or an exception of the functions above. *)
Inductive forward_exn : Type :=
  | TypeError (msg : string)
  | AttributeError (name : string)
  | Raised (e : exn).

Inductive outcome (A : Type) : Type :=
  | Returned (a : A)
  | Failed (e : forward_exn).
Arguments Returned {A} a.
Arguments Failed {A} e.

(** [input_labels]: a dictionary that may lack a key. The labels are a
    tensor that only the losses read. *)
Record InputLabels (L : Type) : Type := {
  syn_labels : option L;
  label_positions : option (list (list nat))
}.
Arguments syn_labels {L} _.
Arguments label_positions {L} _.

Section Forward.
Context {T : Type} `{TensorOps T} {L Inputs : Type}.

(** External to the file: the encoder with its first output, the layers
    of the head applied to a batch of vectors of the right width, and the
    two losses of torch; the encoder and the losses may raise. *)
Variable roberta : Inputs -> result (Tensor3 T).
Variable clf_layers : RobertaClassificationHead -> list (list T)
                      -> list (list T).
Variable mse_loss : list (list T) -> L -> result T.
Variable cross_entropy_loss : list (list T) -> L -> result T.

(** [self.syn_clf(syn_features)]: the first linear layer of the head
    refuses vectors whose width is not its input width. *)
Definition syn_clf_forward (head : RobertaClassificationHead)
    (features : list (list T)) : result (list (list T)) :=
  if forallb (fun row => Nat.eqb (length row) (dense_in head)) features
  then Ok (clf_layers head features)
  else Err (TorchError "mat1 and mat2 shapes cannot be multiplied").

(** Lines 82-117. [self.syn_clf] is what [__init__] left for the hidden
    size of the configuration; the last dimension of the logits is the
    output width of the last layer of the head. *)
Definition forward (cfg : LocalConfig) (hidden_size : nat) (inputs : Inputs)
    (input_labels : option (InputLabels L))
  : outcome (gmap string T * list (list T)) :=
  match roberta inputs with
  | Err e => Failed (Raised e)
  | Ok sequences_output =>
  match input_labels with
  | None => Failed (TypeError "'NoneType' object is not subscriptable")
  | Some labels =>
  match syn_labels labels with
  | None => Failed (Raised (KeyError "syn_labels"))
  | Some labs =>
  match label_positions labels with
  | None => Failed (Raised (KeyError "positions"))
  | Some positions =>
  match extract_features cfg sequences_output positions with
  | Err e => Failed (Raised e)
  | Ok syn_features =>
  match init_syn_clf cfg hidden_size with
  | None => Failed (AttributeError "syn_clf")
  | Some head =>
  match syn_clf_forward head syn_features with
  | Err e => Failed (Raised e)
  | Ok syn_logits =>
      let y_size := out_proj_out head in
      let total :=
        if Nat.eqb y_size 1 then mse_loss syn_logits labs
        else cross_entropy_loss syn_logits labs in
      match total with
      | Err e => Failed (Raised e)
      | Ok v => Returned (<["total"%string := v]> ∅, syn_logits)
      end
  end end end end end end end.
End Forward.

(** An encoder, head layers and losses to run [forward] on. *)
Module ToyForward.

Definition roberta (_ : unit) : result (Tensor3 Z) := Ok Toy.hidden.

Definition clf_layers (head : RobertaClassificationHead)
    (features : list (list Z)) : list (list Z) :=
  map (fun row => replicate (out_proj_out head) (foldr Z.add 0 row)) features.

Definition mse_loss (logits : list (list Z)) (labs : list Z) : result Z :=
  Ok (foldr Z.add 0 (zip_with (fun row y => (default 0 (head row) - y) ^ 2)
                       logits labs)).

Definition cross_entropy_loss (logits : list (list Z)) (labs : list Z)
  : result Z :=
  if forallb (fun y => (0 <=? y) && (y <? 2)) labs
  then Ok (foldr Z.add 0
             (zip_with (fun row y => default 0 (row !! Z.to_nat y))
                logits labs))
  else Err IndexError.

Definition labels : InputLabels (list Z) :=
  {| syn_labels := Some [1]; label_positions := Some Toy.table |}.

End ToyForward.

(** ** Notions used by the statements about the whole pass *)

(** The accumulators of a pass followed by those of another pass. *)
Definition merge_states (a b : BuilderState) : BuilderState :=
  {| features := features a ++ features b;
     num_too_long_exs := num_too_long_exs a + num_too_long_exs b |}.

(** The test of line 205 and the tests of lines 205 and 208 together, for an
    orientation whose tokens were built. *)
Definition too_long (cfg : LocalConfig) (tok : Tokenizer) (o : Orientation)
  : bool :=
  match build_tokens cfg tok o with
  | Ok tp =>
      max_seq_len cfg <? Z.of_nat (length (convert_tokens_to_ids tok tp.1))
  | Err _ => false
  end.
Definition dropped (cfg : LocalConfig) (tok : Tokenizer) (o : Orientation)
  : bool :=
  match build_tokens cfg tok o with
  | Ok tp =>
      (max_seq_len cfg <? Z.of_nat (length (convert_tokens_to_ids tok tp.1)))
      && (max_seq_len cfg - 1 <? Z.of_nat (max_list tp.2))
  | Err _ => false
  end.

(** The orientations that a pass over [examples] encodes, in its order. *)
Definition corpus_orientations (cfg : LocalConfig) (examples : list Example)
  : list Orientation :=
  flat_map (encoded_orientations cfg) examples.

(** The source example of each encoded orientation, in the same order. *)
Definition corpus_sources (cfg : LocalConfig) (examples : list Example)
  : list Example :=
  flat_map (fun ex => map (fun _ => ex) (encoded_orientations cfg ex)) examples.

Definition count_if {A} (f : A -> bool) (l : list A) : nat :=
  length (List.filter f l).

(** [tokens[a:b]] *)
Definition tokens_between (tokens : list string) (a b : nat) : list string :=
  drop a (take b tokens).

(** The pieces of a token sequence: the tokens of a text that is not
    empty, without and with the separator after them (lines 179, 189). *)
Definition text_tokens (tok : Tokenizer) (text : string) : list string :=
  if truthy text then tokenize tok text else [].
Definition text_tokens_sep (tok : Tokenizer) (text : string) : list string :=
  if truthy text then tokenize tok text ++ [sep_token tok] else [].

(** * Properties *)

(** ** Loops and the error monad *)

Lemma bind_Ok {A B} (m : result A) (f : A -> result B) (b : B) :
  m ≫= f = Ok b -> exists a, m = Ok a /\ f a = Ok b.
Proof. destruct m as [a|e]; [eauto | discriminate]. Qed.

Lemma for_each_invariant {A S} (P : S -> Prop) (body : A -> S -> result S)
    (l : list A) :
  (forall x s s', x ∈ l -> P s -> body x s = Ok s' -> P s') ->
  forall st st', P st -> for_each body l st = Ok st' -> P st'.
Proof.
  induction l as [|x l IH]; intros Hstep st st' HP Hrun; simpl in Hrun.
  - by inversion Hrun; subst.
  - destruct (body x st) as [s1|e] eqn:Hb; [|discriminate].
    apply (IH (fun y s s' Hy => Hstep y s s' (list_elem_of_further _ _ _ Hy))
             s1 st'); [|done].
    apply (Hstep x st s1); [left | done | done].
Qed.

(** ** What one orientation does to the accumulators *)

Lemma append_record_Ok cfg tok ex ids table st st' :
  append_record cfg tok ex ids table st = Ok st' ->
  exists p lab,
    pad_id tok = Ok p /\ record_label cfg ex = Ok lab /\
    st' = {| features := features st ++ [make_record cfg ex ids table p lab];
             num_too_long_exs := num_too_long_exs st |}.
Proof.
  unfold append_record. intros Hr.
  apply bind_Ok in Hr as (p & Hp & Hr).
  apply bind_Ok in Hr as (lab & Hlab & Hr).
  exists p, lab. by inversion Hr.
Qed.

(** An orientation either drops its record or appends the one described
    by [emits]. *)
Lemma encode_orientation_Ok cfg tok ex o st st' :
  encode_orientation cfg tok ex o st = Ok st' ->
  features st' = features st \/
  exists r, emits cfg tok ex o r /\ features st' = features st ++ [r].
Proof.
  unfold encode_orientation. intros Hr.
  apply bind_Ok in Hr as ([tokens table] & Hb & Hr). simpl in Hr.
  destruct (max_seq_len cfg <? _) eqn:Hlong.
  - destruct (max_seq_len cfg - 1 <? _) eqn:Hpos.
    + inversion Hr; subst. by left.
    + apply append_record_Ok in Hr as (p & lab & Hp & Hlab & ->).
      right. eexists. split; [|reflexivity].
      exists tokens, table, p, lab. repeat split; try done.
      * intros _. by apply Z.ltb_ge in Hpos.
      * unfold kept_ids. by rewrite Hlong.
  - apply append_record_Ok in Hr as (p & lab & Hp & Hlab & ->).
    right. eexists. split; [|reflexivity].
    exists tokens, table, p, lab. repeat split; try done.
    + intros Hlt. apply Z.ltb_ge in Hlong. lia.
    + unfold kept_ids. by rewrite Hlong.
Qed.

Lemma example_step_unfold cfg tok ex st :
  example_step cfg tok ex st =
  if symmetric cfg then
    st1 ← encode_orientation cfg tok ex (role_A_first ex) st;
    encode_orientation cfg tok ex (role_B_first ex) st1
  else encode_orientation cfg tok ex (role_B_first ex) st.
Proof.
  unfold example_step, orientations, enumerate, orientation_step. simpl.
  destruct (symmetric cfg); simpl.
  - destruct (encode_orientation cfg tok ex (role_A_first ex) st); simpl;
      [|done].
    by destruct (encode_orientation _ _ _ _ _).
  - by destruct (encode_orientation _ _ _ _ _).
Qed.

Lemma example_step_from_corpus cfg tok examples ex st st' :
  ex ∈ examples ->
  Forall (from_corpus cfg tok examples) (features st) ->
  example_step cfg tok ex st = Ok st' ->
  Forall (from_corpus cfg tok examples) (features st').
Proof.
  intros Hex Hall. rewrite example_step_unfold.
  assert (Hone : forall o s s',
    o ∈ encoded_orientations cfg ex ->
    Forall (from_corpus cfg tok examples) (features s) ->
    encode_orientation cfg tok ex o s = Ok s' ->
    Forall (from_corpus cfg tok examples) (features s')).
  { intros o s s' Ho Hs Hr.
    apply encode_orientation_Ok in Hr as [-> | (r & Hem & ->)]; [done|].
    apply Forall_app. split; [done|].
    apply Forall_singleton. by exists ex, o. }
  unfold encoded_orientations in Hone.
  destruct (symmetric cfg).
  - intros Hr. apply bind_Ok in Hr as (s1 & H1 & H2).
    eapply (Hone _ s1); [| |exact H2].
    + set_solver.
    + eapply (Hone _ st); [| |exact H1]; [set_solver | done].
  - intros Hr. eapply (Hone _ st); [| |exact Hr]; [set_solver | done].
Qed.

Lemma build_features_from_corpus cfg tok examples st :
  build_features cfg tok examples = Ok st ->
  Forall (from_corpus cfg tok examples) (features st).
Proof.
  unfold build_features. intros Hr.
  eapply (for_each_invariant
            (fun s => Forall (from_corpus cfg tok examples) (features s)));
    [| |exact Hr].
  - intros ex s s' Hex Hs Hstep. by eapply example_step_from_corpus.
  - by apply Forall_nil.
Qed.

Lemma convert_dataset_to_features_Ok cfg tok examples feats :
  convert_dataset_to_features cfg tok examples = Ok feats ->
  exists st, build_features cfg tok examples = Ok st /\ features st = feats /\
             feats <> [].
Proof.
  unfold convert_dataset_to_features. intros Hr.
  apply bind_Ok in Hr as (st & Hst & Hr).
  apply bind_Ok in Hr as (q & Hq & Hr).
  exists st. inversion Hr; subst. repeat split; [done|].
  unfold not_fitted_percentage in Hq. intros Hnil. by rewrite Hnil in Hq.
Qed.

Lemma produced_from_corpus cfg tok examples feats r :
  convert_dataset_to_features cfg tok examples = Ok feats ->
  r ∈ feats ->
  from_corpus cfg tok examples r.
Proof.
  intros (st & Hst & <- & _)%convert_dataset_to_features_Ok Hr.
  apply build_features_from_corpus in Hst.
  by eapply Forall_forall in Hst.
Qed.

(** ** Lengths of the id sequence and of the mask *)

Lemma py_bound_inside (n : nat) (m : Z) :
  0 <= m <= Z.of_nat n -> py_bound n m = Z.to_nat m.
Proof.
  intros Hm. unfold py_bound.
  destruct (m <? 0) eqn:Hneg; [apply Z.ltb_lt in Hneg; lia | lia].
Qed.

Lemma length_list_upto {A} (l : list A) (m : Z) :
  0 <= m <= Z.of_nat (length l) -> length (list_upto l m) = Z.to_nat m.
Proof.
  intros Hm. unfold list_upto.
  rewrite length_take, py_bound_inside by done. lia.
Qed.




(** ** The report of line 257 *)

Lemma no_record_no_report cfg tok examples st :
  build_features cfg tok examples = Ok st ->
  features st = [] ->
  convert_dataset_to_features cfg tok examples = Err ZeroDivisionError.
Proof.
  intros Hst Hnil. unfold convert_dataset_to_features. rewrite Hst. simpl.
  unfold not_fitted_percentage. by rewrite Hnil.
Qed.

(** C2. The code does not guard the quotient of line 257: on a corpus
    with no example, and on a corpus whose only record is dropped, the
    pass ends in [ZeroDivisionError] instead of reporting a value. *)
Theorem zero_records_division_error :
  (forall cfg tok, convert_dataset_to_features cfg tok []
                   = Err ZeroDivisionError) /\
  build_features (Toy.cfg 4) Toy.tok [Toy.ex_cat_dog]
    = Ok {| features := []; num_too_long_exs := 1 |} /\
  convert_dataset_to_features (Toy.cfg 4) Toy.tok [Toy.ex_cat_dog]
    = Err ZeroDivisionError.
Proof.
  split; [|split].
  - intros cfg tok. by apply (no_record_no_report cfg tok [] initial_state).
  - by vm_compute.
  - by vm_compute.
Qed.

(** ** The position table *)

Lemma enumerate_snoc {A} (l : list A) (x : A) :
  enumerate (l ++ [x]) = enumerate l ++ [(length l, x)].
Proof.
  unfold enumerate. rewrite imap_app. simpl. by rewrite Nat.add_0_r.
Qed.

(** An index found in the dictionary of the roles is one of [syns]. *)
Lemma syns_lab_to_pos_Some (roles : list string) (lab : string) (k : nat) :
  syns_lab_to_pos roles !! lab = Some k -> roles !! k = Some lab.
Proof.
  unfold syns_lab_to_pos.
  induction roles as [|x roles IH] using rev_ind; intros Hk.
  - simpl in Hk. by rewrite lookup_empty in Hk.
  - rewrite enumerate_snoc, foldl_app in Hk. simpl in Hk.
    destruct (decide (x = lab)) as [->|Hne].
    + rewrite lookup_insert_eq in Hk. inversion Hk; subst.
      by rewrite lookup_app_r, Nat.sub_diag by lia.
    + rewrite lookup_insert_ne in Hk by done.
      apply IH in Hk. by rewrite lookup_app_l by (by eapply lookup_lt_Some).
Qed.

(** The table of an orientation: four slots written over the zeros, with
    values that grow with the token sequence. *)
Lemma build_tokens_table cfg tok o tokens table :
  build_tokens cfg tok o = Ok (tokens, table) ->
  exists t s a b c d : nat,
    syns_lab_to_pos (syns cfg) !! "Target"%string = Some t /\
    syns_lab_to_pos (syns cfg) !! "Synonym"%string = Some s /\
    table = written_table (length (syns cfg)) t s a b c d /\
    (1 <= a /\ a <= b /\ b <= c /\ c <= d /\ d <= length tokens)%nat.
Proof.
  unfold build_tokens. cbv zeta. intros Hr.
  apply bind_Ok in Hr as (t & Ht & Hr).
  apply bind_Ok in Hr as (s & Hs & Hr).
  unfold dict_get in Ht, Hs.
  destruct (syns_lab_to_pos (syns cfg) !! "Target"%string) as [t'|] eqn:Et;
    [|discriminate].
  destruct (syns_lab_to_pos (syns cfg) !! "Synonym"%string) as [s'|] eqn:Es;
    [|discriminate].
  inversion Ht; inversion Hs; subst t' s'. inversion Hr; subst tokens table.
  do 6 eexists. split; [reflexivity|]. split; [reflexivity|].
  split; [reflexivity|].
  repeat (destruct (truthy _)); rewrite ?length_app; simpl; lia.
Qed.

Section Table.
Variables (roles : list string) (t s a b c d : nat).
Hypothesis Ht : roles !! t = Some "Target"%string.
Hypothesis Hs : roles !! s = Some "Synonym"%string.

Lemma roles_differ : t <> s.
Proof. intros ->. rewrite Ht in Hs. discriminate. Qed.

Lemma table_target :
  written_table (length roles) t s a b c d !! (t * 2)%nat = Some a /\
  written_table (length roles) t s a b c d !! (t * 2 + 1)%nat = Some b.
Proof.
  pose proof roles_differ as Hne.
  apply lookup_lt_Some in Ht as Hlt.
  unfold written_table. split.
  - rewrite !list_lookup_insert_ne by lia.
    apply list_lookup_insert_eq. rewrite length_replicate. lia.
  - rewrite !list_lookup_insert_ne by lia.
    apply list_lookup_insert_eq. rewrite length_insert, length_replicate.
    lia.
Qed.

Lemma table_synonym :
  written_table (length roles) t s a b c d !! (s * 2)%nat = Some c /\
  written_table (length roles) t s a b c d !! (s * 2 + 1)%nat = Some d.
Proof.
  apply lookup_lt_Some in Hs as Hlt.
  unfold written_table. split.
  - rewrite list_lookup_insert_ne by lia.
    apply list_lookup_insert_eq.
    rewrite !length_insert, length_replicate. lia.
  - apply list_lookup_insert_eq.
    rewrite !length_insert, length_replicate. lia.
Qed.

(** [max(positions)] is the end of the second span. *)
Lemma table_max : (a <= d)%nat -> (b <= d)%nat -> (c <= d)%nat ->
                  max_list (written_table (length roles) t s a b c d) = d.
Proof.
  intros Ha Hb Hc. apply Nat.le_antisymm.
  - assert (Hall : Forall (fun x => (x <= d)%nat)
                     (written_table (length roles) t s a b c d)).
    { unfold written_table. repeat (apply Forall_insert; [|lia]).
      apply Forall_replicate. lia. }
    clear -Hall. induction Hall as [|x l Hx _ IH]; simpl; lia.
  - apply max_list_elem_of_le. apply list_elem_of_lookup.
    exists (s * 2 + 1)%nat. apply table_synonym.
Qed.
End Table.

Lemma build_tokens_spans cfg tok o tokens table :
  build_tokens cfg tok o = Ok (tokens, table) ->
  exists a b c d : nat,
    span_pair cfg table "Target" = Some (a, b) /\
    span_pair cfg table "Synonym" = Some (c, d) /\
    (1 <= a /\ a <= b /\ b <= c /\ c <= d /\ d <= length tokens)%nat /\
    max_list table = d.
Proof.
  intros (t & s & a & b & c & d & Ht & Hs & -> & Hord)%build_tokens_table.
  pose proof (syns_lab_to_pos_Some _ _ _ Ht) as Ht'.
  pose proof (syns_lab_to_pos_Some _ _ _ Hs) as Hs'.
  destruct (table_target (syns cfg) t s a b c d Ht' Hs') as [Ha Hb].
  destruct (table_synonym (syns cfg) t s a b c d Hs') as [Hc Hd].
  exists a, b, c, d. unfold span_pair. rewrite Ht, Hs. simpl.
  rewrite Ha, Hb, Hc, Hd. simpl. repeat split; try lia.
  apply (table_max (syns cfg) t s a b c d Hs'); lia.
Qed.

Lemma Toy_ids_per_token : ids_per_token Toy.tok.
Proof. intros ts. apply length_map. Qed.

(** C3, as the code has it. With a tokenizer that gives one id per token,
    both span position pairs of every record that
    [convert_dataset_to_features] returns satisfy
    [0 <= start <= end <= max_seq_len]: the end is the position after the
    span, and it reaches [max_seq_len] when the span closes a sequence
    that fits exactly. *)
Theorem span_positions_within_max_seq_len cfg tok examples feats r role :
  ids_per_token tok ->
  convert_dataset_to_features cfg tok examples = Ok feats ->
  r ∈ feats ->
  role = "Target"%string \/ role = "Synonym"%string ->
  exists start end_ : nat,
    span_pair cfg (positions r) role = Some (start, end_) /\
    0 <= Z.of_nat start /\ (start <= end_)%nat /\
    Z.of_nat end_ <= max_seq_len cfg.
Proof.
  intros Htok Hrun Hr Hrole.
  destruct (produced_from_corpus _ _ _ _ _ Hrun Hr)
    as (ex & o & _ & _ & tokens & table & p & lab & Hb & _ & _ & Hkeep & ->).
  destruct (build_tokens_spans _ _ _ _ _ Hb)
    as (a & b & c & d & Hab & Hcd & Hord & Hmax).
  assert (Hd : Z.of_nat d <= max_seq_len cfg).
  { destruct (Z.lt_ge_cases (max_seq_len cfg)
                (Z.of_nat (length (convert_tokens_to_ids tok tokens))))
      as [Hlong|Hfit].
    - specialize (Hkeep Hlong). rewrite Hmax in Hkeep. lia.
    - rewrite Htok in Hfit. lia. }
  simpl. destruct Hrole as [-> | ->].
  - exists a, b. repeat split; [done | lia..].
  - exists c, d. repeat split; [done | lia..].
Qed.

Lemma span_positions_within_max_seq_len_witness :
  exists start end_ : nat,
    span_pair (Toy.cfg 16) (positions Toy.rec_cat_dog) "Synonym"
      = Some (start, end_) /\
    0 <= Z.of_nat start /\ (start <= end_)%nat /\
    Z.of_nat end_ <= max_seq_len (Toy.cfg 16).
Proof.
  apply (span_positions_within_max_seq_len (Toy.cfg 16) Toy.tok
           [Toy.ex_cat_dog] [Toy.rec_cat_dog] Toy.rec_cat_dog "Synonym").
  - exact Toy_ids_per_token.
  - vm_compute. reflexivity.
  - left.
  - right. reflexivity.
Defined.

(** C3 as stated fails: "a dog" / "a cat" with [max_seq_len = 5] gives a
    sequence of exactly five tokens, nothing is truncated, and the record
    is returned with the end of its second span at 5, above
    [max_seq_len - 1]. *)
Lemma span_end_reaches_max_seq_len :
  exists r,
    convert_dataset_to_features (Toy.cfg 5) Toy.tok [Toy.ex_at_end] = Ok [r] /\
    span_pair (Toy.cfg 5) (positions r) "Synonym" = Some (4, 5)%nat /\
    ~ (Z.of_nat 5 <= max_seq_len (Toy.cfg 5) - 1).
Proof.
  eexists. split; [vm_compute; reflexivity|].
  split; [vm_compute; reflexivity|].
  simpl. lia.
Qed.

(** ** Truncation *)

(** C4, as the code has it. When the ids of an orientation are more than
    [max_seq_len], they are cut to exactly [max_seq_len] and the counter
    grows by one whether or not the record is kept; the record is dropped
    exactly when the recorded end of a span is above [max_seq_len - 1],
    that is at [max_seq_len] or beyond. *)
Theorem truncation_policy cfg tok ex o st tokens table :
  0 <= max_seq_len cfg ->
  build_tokens cfg tok o = Ok (tokens, table) ->
  max_seq_len cfg < Z.of_nat (length (convert_tokens_to_ids tok tokens)) ->
  let ids := convert_tokens_to_ids tok tokens in
  exists a b c d : nat,
    span_pair cfg table "Target" = Some (a, b) /\
    span_pair cfg table "Synonym" = Some (c, d) /\
    Z.of_nat (length (list_upto ids (max_seq_len cfg))) = max_seq_len cfg /\
    (max_seq_len cfg - 1 < Z.of_nat b \/ max_seq_len cfg - 1 < Z.of_nat d ->
     encode_orientation cfg tok ex o st
     = Ok {| features := features st;
             num_too_long_exs := S (num_too_long_exs st) |}) /\
    (~ (max_seq_len cfg - 1 < Z.of_nat b \/ max_seq_len cfg - 1 < Z.of_nat d) ->
     encode_orientation cfg tok ex o st
     = (p ← pad_id tok;
        lab ← record_label cfg ex;
        Ok {| features :=
                features st ++
                [make_record cfg ex (list_upto ids (max_seq_len cfg))
                   table p lab];
              num_too_long_exs := S (num_too_long_exs st) |})).
Proof.
  intros Hmsl Hb Hlong ids. subst ids.
  destruct (build_tokens_spans _ _ _ _ _ Hb)
    as (a & b & c & d & Hab & Hcd & Hord & Hmax).
  exists a, b, c, d. split; [done|]. split; [done|].
  split; [rewrite length_list_upto; lia|].
  unfold encode_orientation. rewrite Hb. simpl.
  apply Z.ltb_lt in Hlong. rewrite Hlong, Hmax.
  split; intros Hpos.
  - assert (Hd : (max_seq_len cfg - 1 <? Z.of_nat d) = true)
      by (apply Z.ltb_lt; lia).
    by rewrite Hd.
  - assert (Hd : (max_seq_len cfg - 1 <? Z.of_nat d) = false)
      by (apply Z.ltb_ge; lia).
    by rewrite Hd.
Qed.

Lemma truncation_policy_witness :
  let ids := convert_tokens_to_ids Toy.tok
               ["<s>"; "a"; "dog"; "a"; "cat"; "sat"; "</s>"] in
  exists a b c d : nat,
    span_pair (Toy.cfg 6) [2; 3; 4; 5]%nat "Target" = Some (a, b) /\
    span_pair (Toy.cfg 6) [2; 3; 4; 5]%nat "Synonym" = Some (c, d) /\
    Z.of_nat (length (list_upto ids (max_seq_len (Toy.cfg 6))))
      = max_seq_len (Toy.cfg 6) /\
    (max_seq_len (Toy.cfg 6) - 1 < Z.of_nat b \/
     max_seq_len (Toy.cfg 6) - 1 < Z.of_nat d ->
     encode_orientation (Toy.cfg 6) Toy.tok Toy.ex_tail
       (role_B_first Toy.ex_tail) initial_state
     = Ok {| features := features initial_state;
             num_too_long_exs := S (num_too_long_exs initial_state) |}) /\
    (~ (max_seq_len (Toy.cfg 6) - 1 < Z.of_nat b \/
        max_seq_len (Toy.cfg 6) - 1 < Z.of_nat d) ->
     encode_orientation (Toy.cfg 6) Toy.tok Toy.ex_tail
       (role_B_first Toy.ex_tail) initial_state
     = (p ← pad_id Toy.tok;
        lab ← record_label (Toy.cfg 6) Toy.ex_tail;
        Ok {| features :=
                features initial_state ++
                [make_record (Toy.cfg 6) Toy.ex_tail
                   (list_upto ids (max_seq_len (Toy.cfg 6)))
                   [2; 3; 4; 5]%nat p lab];
              num_too_long_exs := S (num_too_long_exs initial_state) |})).
Proof.
  apply (truncation_policy (Toy.cfg 6) Toy.tok Toy.ex_tail
           (role_B_first Toy.ex_tail) initial_state
           ["<s>"; "a"; "dog"; "a"; "cat"; "sat"; "</s>"]%string
           [2; 3; 4; 5]%nat).
  - simpl. lia.
  - vm_compute. reflexivity.
  - vm_compute. reflexivity.
Defined.

(** C4 as stated fails: in "a dog" / "a cat sat" with [max_seq_len = 6]
    the seven ids are cut to six, the counter grows, and the record is
    kept although the end of its second span is 5, which is at
    [max_seq_len - 1]. *)
Lemma record_kept_with_end_at_last_index :
  exists r,
    build_features (Toy.cfg 6) Toy.tok [Toy.ex_tail]
      = Ok {| features := [r]; num_too_long_exs := 1 |} /\
    length (input_ids r) = 6%nat /\
    span_pair (Toy.cfg 6) (positions r) "Synonym" = Some (4, 5)%nat /\
    max_seq_len (Toy.cfg 6) - 1 <= Z.of_nat 5.
Proof.
  eexists. split; [vm_compute; reflexivity|].
  split; [vm_compute; reflexivity|].
  split; [vm_compute; reflexivity|].
  simpl. lia.
Qed.

(** An orientation that passes the test of line 208 appends its record,
    once the pad id and the label are found. *)
Lemma encode_orientation_kept cfg tok ex o st tokens table p lab :
  build_tokens cfg tok o = Ok (tokens, table) ->
  pad_id tok = Ok p ->
  record_label cfg ex = Ok lab ->
  (max_seq_len cfg < Z.of_nat (length (convert_tokens_to_ids tok tokens)) ->
   Z.of_nat (max_list table) <= max_seq_len cfg - 1) ->
  encode_orientation cfg tok ex o st
  = Ok {| features :=
            features st ++
            [make_record cfg ex
               (kept_ids cfg (convert_tokens_to_ids tok tokens)) table p lab];
          num_too_long_exs :=
            if max_seq_len cfg
               <? Z.of_nat (length (convert_tokens_to_ids tok tokens))
            then S (num_too_long_exs st) else num_too_long_exs st |}.
Proof.
  intros Hb Hp Hlab Hkeep.
  unfold encode_orientation, kept_ids. rewrite Hb. simpl.
  destruct (max_seq_len cfg <? _) eqn:Hlong.
  - apply Z.ltb_lt in Hlong. specialize (Hkeep Hlong).
    assert (Hpos : (max_seq_len cfg - 1 <? Z.of_nat (max_list table)) = false)
      by (apply Z.ltb_ge; lia).
    rewrite Hpos. unfold append_record. by rewrite Hp, Hlab.
  - unfold append_record. rewrite Hp, Hlab. simpl. by destruct st.
Qed.

(** ** The orientation that is encoded without [symmetric] *)

(** C1, as the code has it. When [symmetric] is false the guard of line
    170 skips the first tuple, so only the orientation with [text_2] first
    is encoded: [text_2] with its span in the role "Target", then [text_1]
    in the role "Synonym". The example gives at most one record: the one
    of that orientation, or none when the sequence is truncated with a
    recorded position above [max_seq_len - 1]. *)
Theorem not_symmetric_encodes_role_B_first cfg tok ex st :
  symmetric cfg = false ->
  example_step cfg tok ex st
    = encode_orientation cfg tok ex (role_B_first ex) st /\
  (forall st', example_step cfg tok ex st = Ok st' ->
     (features st' = features st /\
      num_too_long_exs st' = S (num_too_long_exs st)) \/
     (exists r, features st' = features st ++ [r] /\
                emits cfg tok ex (role_B_first ex) r /\ example r = ex)) /\
  (forall r, emits cfg tok ex (role_B_first ex) r ->
     exists n, example_step cfg tok ex st
               = Ok {| features := features st ++ [r];
                       num_too_long_exs := n |}).
Proof.
  intros Hsym. rewrite example_step_unfold, Hsym. split; [done|].
  split; [|intros r (tokens & table & p & lab & Hb & Hp & Hlab & Hkeep & ->);
           eexists; by apply encode_orientation_kept].
  intros st' Hr.
  pose proof Hr as Hcase. apply encode_orientation_Ok in Hcase.
  destruct Hcase as [Hsame | (r & Hem & Hfeat)].
  - left. split; [done|].
    unfold encode_orientation in Hr.
    apply bind_Ok in Hr as (tp & _ & Hr).
    destruct (max_seq_len cfg <? _).
    + destruct (max_seq_len cfg - 1 <? _).
      * by inversion Hr.
      * apply append_record_Ok in Hr as (p & lab & _ & _ & ->).
        simpl in Hsame. apply (f_equal length) in Hsame.
        rewrite length_app in Hsame. simpl in Hsame. lia.
    + apply append_record_Ok in Hr as (p & lab & _ & _ & ->).
      simpl in Hsame. apply (f_equal length) in Hsame.
      rewrite length_app in Hsame. simpl in Hsame. lia.
  - right. exists r. repeat split; try done.
    destruct Hem as (tokens & table & p & lab & _ & _ & _ & _ & ->). done.
Qed.

Lemma not_symmetric_encodes_role_B_first_witness :
  example_step (Toy.cfg 16) Toy.tok Toy.ex_cat_dog initial_state
    = encode_orientation (Toy.cfg 16) Toy.tok Toy.ex_cat_dog
        (role_B_first Toy.ex_cat_dog) initial_state /\
  (forall st',
     example_step (Toy.cfg 16) Toy.tok Toy.ex_cat_dog initial_state = Ok st' ->
     (features st' = features initial_state /\
      num_too_long_exs st' = S (num_too_long_exs initial_state)) \/
     (exists r, features st' = features initial_state ++ [r] /\
                emits (Toy.cfg 16) Toy.tok Toy.ex_cat_dog
                  (role_B_first Toy.ex_cat_dog) r /\
                example r = Toy.ex_cat_dog)) /\
  (forall r,
     emits (Toy.cfg 16) Toy.tok Toy.ex_cat_dog (role_B_first Toy.ex_cat_dog) r ->
     exists n,
       example_step (Toy.cfg 16) Toy.tok Toy.ex_cat_dog initial_state
       = Ok {| features := features initial_state ++ [r];
               num_too_long_exs := n |}).
Proof.
  apply (not_symmetric_encodes_role_B_first (Toy.cfg 16) Toy.tok
           Toy.ex_cat_dog initial_state).
  reflexivity.
Defined.

(** C1 as stated fails twice. With [symmetric] false, "The cat sat" /
    "A dog ran" and 16 positions give one record, and it starts with the
    ids of "A dog ran": it is not the record of the orientation with
    [text_1] first. With 4 positions the same example gives no record. *)
Lemma not_symmetric_record_is_not_role_A_first :
  symmetric (Toy.cfg 16) = false /\
  convert_dataset_to_features (Toy.cfg 16) Toy.tok [Toy.ex_cat_dog]
    = Ok [Toy.rec_cat_dog] /\
  take 4 (input_ids Toy.rec_cat_dog)
    = convert_tokens_to_ids Toy.tok ["<s>"; "A"; "dog"; "ran"] /\
  ~ emits (Toy.cfg 16) Toy.tok Toy.ex_cat_dog (role_A_first Toy.ex_cat_dog)
      Toy.rec_cat_dog /\
  build_features (Toy.cfg 4) Toy.tok [Toy.ex_cat_dog]
    = Ok {| features := []; num_too_long_exs := 1 |}.
Proof.
  split; [reflexivity|].
  split; [vm_compute; reflexivity|].
  split; [vm_compute; reflexivity|].
  split; [|vm_compute; reflexivity].
  intros (tokens & table & p & lab & Hb & _ & _ & _ & Hrec).
  vm_compute in Hb. inversion Hb; subst tokens table.
  apply (f_equal (fun r => take 2 (input_ids r))) in Hrec.
  vm_compute in Hrec. discriminate.
Qed.

(** ** [train_scd] and the loss *)

Lemma record_label_train_scd cfg ex :
  train_scd cfg = true -> String.eqb (loss cfg) "mse_loss" = false ->
  record_label cfg ex
  = Err (AssertionError "should be mse loss when training scd").
Proof. intros Hscd Hloss. unfold record_label. by rewrite Hscd, Hloss. Qed.

(** C7, as the code has it. With [train_scd] and a loss that is not
    [mse_loss], the assertion is evaluated when an orientation has passed
    the truncation test and its record is about to be built: that
    orientation ends the pass with [AssertionError], so no record is ever
    built. An orientation that is dropped does not reach the assertion. *)
Theorem train_scd_asserts_mse_loss cfg tok :
  train_scd cfg = true ->
  String.eqb (loss cfg) "mse_loss" = false ->
  (forall ex o st tokens table p,
     build_tokens cfg tok o = Ok (tokens, table) ->
     pad_id tok = Ok p ->
     (max_seq_len cfg < Z.of_nat (length (convert_tokens_to_ids tok tokens)) ->
      Z.of_nat (max_list table) <= max_seq_len cfg - 1) ->
     encode_orientation cfg tok ex o st
     = Err (AssertionError "should be mse loss when training scd")) /\
  (forall examples st,
     build_features cfg tok examples = Ok st -> features st = []).
Proof.
  intros Hscd Hloss. split.
  - intros ex o st tokens table p Hb Hp Hkeep.
    unfold encode_orientation. rewrite Hb. simpl.
    assert (Happ : forall ids s, append_record cfg tok ex ids table s
              = Err (AssertionError "should be mse loss when training scd")).
    { intros ids s. unfold append_record. rewrite Hp. simpl.
      by rewrite record_label_train_scd. }
    destruct (max_seq_len cfg <? _) eqn:Hlong; [|apply Happ].
    apply Z.ltb_lt in Hlong. specialize (Hkeep Hlong).
    destruct (max_seq_len cfg - 1 <? _) eqn:Hpos; [|apply Happ].
    apply Z.ltb_lt in Hpos. lia.
  - intros examples st Hst.
    apply build_features_from_corpus in Hst.
    destruct (features st) as [|r rs]; [done|].
    apply Forall_cons in Hst as [(ex & o & _ & _ & Hem) _].
    destruct Hem as (tokens & table & p & lab & _ & _ & Hlab & _).
    rewrite record_label_train_scd in Hlab by done. discriminate.
Qed.

Lemma train_scd_asserts_mse_loss_witness :
  (forall ex o st tokens table p,
     build_tokens (Toy.with_train_scd (Toy.cfg 16)) Toy.tok o
       = Ok (tokens, table) ->
     pad_id Toy.tok = Ok p ->
     (max_seq_len (Toy.with_train_scd (Toy.cfg 16))
        < Z.of_nat (length (convert_tokens_to_ids Toy.tok tokens)) ->
      Z.of_nat (max_list table)
        <= max_seq_len (Toy.with_train_scd (Toy.cfg 16)) - 1) ->
     encode_orientation (Toy.with_train_scd (Toy.cfg 16)) Toy.tok ex o st
     = Err (AssertionError "should be mse loss when training scd")) /\
  (forall examples st,
     build_features (Toy.with_train_scd (Toy.cfg 16)) Toy.tok examples = Ok st ->
     features st = []).
Proof.
  apply (train_scd_asserts_mse_loss (Toy.with_train_scd (Toy.cfg 16)) Toy.tok).
  - reflexivity.
  - reflexivity.
Defined.

(** C7 as stated fails: with [train_scd] and the cross-entropy loss, the
    loop goes through a corpus whose only record is dropped without any
    error, and the pass ends on the quotient of line 257; so it does on
    a corpus with no example. The assertion is not evaluated in either. *)
Lemma train_scd_assertion_not_reached :
  train_scd (Toy.with_train_scd (Toy.cfg 4)) = true /\
  String.eqb (loss (Toy.with_train_scd (Toy.cfg 4))) "mse_loss" = false /\
  build_features (Toy.with_train_scd (Toy.cfg 4)) Toy.tok [Toy.ex_cat_dog]
    = Ok {| features := []; num_too_long_exs := 1 |} /\
  convert_dataset_to_features (Toy.with_train_scd (Toy.cfg 4)) Toy.tok
    [Toy.ex_cat_dog] = Err ZeroDivisionError /\
  convert_dataset_to_features (Toy.with_train_scd (Toy.cfg 4)) Toy.tok []
    = Err ZeroDivisionError.
Proof. repeat split; vm_compute; reflexivity. Qed.

(** ** The span pooler *)

Section Pooling.
Context {T : Type} `{TensorOps T}.

(** C6, as the code has it. A [pool_type] that is none of "mean", "max"
    and "first" is tested with [startswith('combined')]: every name that
    begins with "combined" pools as "combined" does, and every other name
    raises [ValueError] with the name in its message. *)
Theorem pool_type_dispatch (pt : string) (hs : nat) (m : list (list T))
    (start1 end1 start2 end2 : nat) :
  pt <> "mean"%string -> pt <> "max"%string -> pt <> "first"%string ->
  pool_spans pt hs m start1 end1 start2 end2
  = if String.prefix "combined" pt
    then pool_spans "combined" hs m start1 end1 start2 end2
    else Err (ValueError ("wrong pool_type: " +:+ pt)).
Proof.
  intros Hmean Hmax Hfirst. unfold pool_spans.
  apply String.eqb_neq in Hmean, Hmax, Hfirst.
  rewrite Hmean, Hmax, Hfirst. simpl.
  by destruct (String.prefix "combined" pt).
Qed.

(** In a batch that is not empty the error leaves [extract_features]. *)
Lemma extract_features_wrong_pool_type cfg (h : Tensor3 T) positions n m
    start1 end1 start2 end2 :
  t_bs h = S n ->
  item positions 0 0 = Ok start1 -> item positions 0 1 = Ok end1 ->
  item positions 0 2 = Ok start2 -> item positions 0 3 = Ok end2 ->
  example_rows h 0 = Ok m ->
  pool_type cfg <> "mean"%string -> pool_type cfg <> "max"%string ->
  pool_type cfg <> "first"%string ->
  String.prefix "combined" (pool_type cfg) = false ->
  extract_features cfg h positions
  = Err (ValueError ("wrong pool_type: " +:+ pool_type cfg)).
Proof.
  intros Hbs H0 H1 H2 H3 Hm Hmean Hmax Hfirst Hpre.
  unfold extract_features. rewrite Hbs. simpl.
  unfold extract_example. rewrite H0, H1, H2, H3, Hm. simpl.
  apply String.eqb_neq in Hmean, Hmax, Hfirst.
  unfold pool_spans. by rewrite Hmean, Hmax, Hfirst, Hpre.
Qed.

(** ** The feature merger *)



(** A name that no branch of lines 142-149 matches leaves
    [merged_feature] unbound. *)
Lemma merge_no_branch (mt : string) (emb1 emb2 : list T) :
  mt <> "featwise_mul"%string -> mt <> "concat"%string ->
  mt <> "featwise_mul_norm"%string ->
  String.prefix "combined" mt = false ->
  merge mt emb1 emb2 = Err (UnboundLocalError "merged_feature").
Proof.
  intros H1 H2 H3 Hpre. apply String.eqb_neq in H1, H2, H3.
  unfold merge. by rewrite H1, H2, H3, Hpre.
Qed.

(** C9. With [target_embeddings = "concat"] and two pooled vectors of the
    same width, the merged vector is [emb1] followed by [emb2]: its first
    half is [emb1] and its second half is [emb2], element for element. *)
Theorem concat_merge_halves cfg (emb1 emb2 : list T) :
  target_embeddings cfg = "concat"%string ->
  length emb1 = length emb2 ->
  exists merged,
    merge (target_embeddings cfg) emb1 emb2 = Ok merged /\
    merged = emb1 ++ emb2 /\
    length merged = (2 * length emb1)%nat /\
    take (length merged / 2) merged = emb1 /\
    drop (length merged / 2) merged = emb2.
Proof.
  intros -> Hlen. exists (emb1 ++ emb2).
  assert (Hhalf : (length (emb1 ++ emb2) / 2 = length emb1)%nat).
  { rewrite length_app, <- Hlen.
    replace (length emb1 + length emb1)%nat with (length emb1 * 2)%nat by lia.
    by apply Nat.div_mul. }
  rewrite Hhalf. repeat split.
  - rewrite length_app. lia.
  - by rewrite take_app_length.
  - by rewrite drop_app_length.
Qed.

End Pooling.

Lemma pool_type_dispatch_witness :
  pool_spans "median" 2 [[1; 2]; [3; 4]; [5; 6]] 0 1 1 3
  = if String.prefix "combined" "median"
    then pool_spans "combined" 2 [[1; 2]; [3; 4]; [5; 6]] 0 1 1 3
    else Err (ValueError ("wrong pool_type: " +:+ "median")).
Proof.
  apply (pool_type_dispatch "median" 2 [[1; 2]; [3; 4]; [5; 6]] 0 1 1 3).
  - discriminate.
  - discriminate.
  - discriminate.
Defined.

(** C6 as stated fails: "combined_v2" is none of the four names, and it
    selects the combined pooling instead of raising. *)
Lemma combined_prefix_pool_type_accepted :
  "combined_v2"%string <> "combined"%string /\
  pool_spans "combined_v2" 2 [[1; 2]; [3; 4]; [5; 6]] 0 1 1 3
    = Ok ([1; 2; 1; 2; 1; 2], [4; 5; 5; 6; 3; 4]) /\
  extract_features (with_strategies (Toy.cfg 16) "combined_v2" "featwise_mul")
    Toy.hidden Toy.table
    = Ok [[4; 10; 5; 12; 3; 8]].
Proof.
  split; [discriminate|]. split; vm_compute; reflexivity.
Qed.



Lemma concat_merge_halves_witness :
  exists merged,
    merge (target_embeddings (Toy.cfg 16)) [1; 2] [3; 4] = Ok merged /\
    merged = [1; 2] ++ [3; 4] /\
    length merged = (2 * length [1; 2])%nat /\
    take (length merged / 2) merged = [1; 2] /\
    drop (length merged / 2) merged = [3; 4].
Proof.
  apply (concat_merge_halves (Toy.cfg 16) [1; 2] [3; 4]).
  - reflexivity.
  - reflexivity.
Defined.

(** ** The input width of the head *)

(** C10 fails on the code. With [pool_type = "combined_v2"],
    [extract_features] pools as "combined" and gives vectors of width
    [3 * 2 * 2 = 12] for a hidden size 2, while [__init__], which
    compares with the exact string, builds the head for the width 4. The
    same happens with [target_embeddings = "combined_v2"]: width 6
    against a head for 2. *)
Theorem head_width_differs_for_combined_prefix :
  init_syn_clf (with_strategies (Toy.cfg 16) "combined_v2" "concat") 2
    = Some {| dense_in := 4; dense_out := 2; out_proj_out := 2 |} /\
  extract_features (with_strategies (Toy.cfg 16) "combined_v2" "concat")
    Toy.hidden Toy.table
    = Ok [[1; 2; 1; 2; 1; 2; 4; 5; 5; 6; 3; 4]] /\
  init_syn_clf (with_strategies (Toy.cfg 16) "first" "combined_v2") 2
    = Some {| dense_in := 2; dense_out := 2; out_proj_out := 2 |} /\
  extract_features (with_strategies (Toy.cfg 16) "first" "combined_v2")
    Toy.hidden Toy.table
    = Ok [[1; 2; 3; 4; 3; 8]].
Proof. repeat split; vm_compute; reflexivity. Qed.

Section Widths.
Context {T : Type} `{TensorOps T}.

Lemma length_mean_dim0 hs (m : list (list T)) : length (mean_dim0 hs m) = hs.
Proof. unfold mean_dim0. by rewrite length_map, length_seq. Qed.

Lemma length_max_dim0 hs (m : list (list T)) emb :
  max_dim0 hs m = Ok emb -> length emb = hs.
Proof.
  unfold max_dim0. destruct m; [discriminate|].
  intros Hr. inversion Hr. by rewrite length_map, length_seq.
Qed.

Lemma length_row_at hs (m : list (list T)) i row :
  Forall (fun r => length r = hs) m -> row_at m i = Ok row -> length row = hs.
Proof.
  unfold row_at. intros Hm Hr.
  destruct (m !! i) as [r|] eqn:Hi; [|discriminate].
  inversion Hr; subst. by eapply Forall_lookup_1 in Hm.
Qed.

Lemma pool_spans_width pt hs (m : list (list T)) s1 e1 s2 e2 emb1 emb2 :
  Forall (fun r => length r = hs) m ->
  pool_spans pt hs m s1 e1 s2 e2 = Ok (emb1, emb2) ->
  length emb1 = pooled_width pt hs /\ length emb2 = pooled_width pt hs.
Proof.
  intros Hm. unfold pool_spans, pooled_width.
  assert (Hsl : forall a b, Forall (fun r => length r = hs) (rows_slice m a b))
    by (intros a b; by apply Forall_drop, Forall_take).
  destruct (String.eqb pt "mean"); simpl.
  { intros Hr. inversion Hr. by rewrite !length_mean_dim0. }
  destruct (String.eqb pt "max"); simpl.
  { intros Hr. apply bind_Ok in Hr as (x & Hx & Hr).
    apply bind_Ok in Hr as (y & Hy & Hr). inversion Hr; subst.
    split; by eapply length_max_dim0. }
  destruct (String.eqb pt "first"); simpl.
  { intros Hr. apply bind_Ok in Hr as (x & Hx & Hr).
    apply bind_Ok in Hr as (y & Hy & Hr). inversion Hr; subst.
    split; by eapply length_row_at. }
  destruct (String.prefix "combined" pt); [|discriminate].
  intros Hr. apply bind_Ok in Hr as (x & Hx & Hr).
  apply bind_Ok in Hr as (y & Hy & Hr). inversion Hr; subst.
  apply bind_Ok in Hx as (mx & Hmx & Hx).
  apply bind_Ok in Hx as (fx & Hfx & Hx).
  apply bind_Ok in Hy as (my & Hmy & Hy).
  apply bind_Ok in Hy as (fy & Hfy & Hy).
  inversion Hx; inversion Hy; subst.
  rewrite !length_app, !length_mean_dim0.
  rewrite (length_max_dim0 _ _ _ Hmx), (length_max_dim0 _ _ _ Hmy).
  rewrite (length_row_at hs _ _ _ (Hsl _ _) Hfx).
  rewrite (length_row_at hs _ _ _ (Hsl _ _) Hfy). lia.
Qed.

Lemma merge_width mt (emb1 emb2 : list T) w merged :
  length emb1 = w -> length emb2 = w ->
  merge mt emb1 emb2 = Ok merged -> length merged = merged_width mt w.
Proof.
  intros H1 H2. unfold merge, merged_width, normalized.
  destruct (String.eqb_spec mt "featwise_mul") as [->|_]; simpl.
  { intros Hr. inversion Hr. rewrite length_zip_with. lia. }
  destruct (String.eqb_spec mt "concat") as [->|_]; simpl.
  { intros Hr. inversion Hr. rewrite length_app. lia. }
  destruct (String.eqb_spec mt "featwise_mul_norm") as [->|_]; simpl.
  { intros Hr. inversion Hr. rewrite length_zip_with, !length_map. lia. }
  destruct (String.prefix "combined" mt); [|discriminate].
  intros Hr. inversion Hr. rewrite !length_app, length_zip_with. lia.
Qed.

(** Every row that [extract_features] returns has the width that the two
    strategies give. *)
Lemma extract_features_width cfg (h : Tensor3 T) positions rows :
  well_shaped h ->
  extract_features cfg h positions = Ok rows ->
  Forall (fun row => length row
            = merged_width (target_embeddings cfg)
                (pooled_width (pool_type cfg) (t_hs h))) rows.
Proof.
  intros [_ Hshape] Hr. unfold extract_features in Hr.
  apply bind_Ok in Hr as (feats & Hloop & Hr).
  assert (rows = feats) as -> by (destruct feats; [discriminate|by inversion Hr]).
  clear Hr.
  eapply (for_each_invariant
            (fun fs => Forall (fun row => length row
               = merged_width (target_embeddings cfg)
                   (pooled_width (pool_type cfg) (t_hs h))) fs));
    [| |exact Hloop]; [|by apply Forall_nil].
  intros ex_id fs fs' _ Hfs Hstep. unfold extract_example in Hstep.
  apply bind_Ok in Hstep as (s1 & _ & Hstep).
  apply bind_Ok in Hstep as (e1 & _ & Hstep).
  apply bind_Ok in Hstep as (s2 & _ & Hstep).
  apply bind_Ok in Hstep as (e2 & _ & Hstep).
  apply bind_Ok in Hstep as (m & Hm & Hstep).
  apply bind_Ok in Hstep as ([emb1 emb2] & Hpool & Hstep).
  apply bind_Ok in Hstep as (merged & Hmerge & Hstep).
  inversion Hstep; subst. apply Forall_app. split; [done|].
  apply Forall_singleton.
  unfold example_rows in Hm.
  destruct (t_data h !! ex_id) as [m'|] eqn:Hex; [|discriminate].
  inversion Hm; subst m'.
  apply (Forall_lookup_1 _ _ _ _ Hshape) in Hex as [_ Hrows].
  destruct (pool_spans_width _ _ _ _ _ _ _ _ _ Hrows Hpool) as [Hw1 Hw2].
  simpl in Hmerge.
  exact (merge_width _ _ _ _ _ Hw1 Hw2 Hmerge).
Qed.

End Widths.

(** For the four exact names of each option, the head is built for the
    width that [extract_features] produces. *)
Lemma head_input_size_matches cfg hs :
  pool_type cfg ∈ ["mean"; "max"; "first"; "combined"]%string ->
  target_embeddings cfg
    ∈ ["featwise_mul"; "concat"; "featwise_mul_norm"; "combined"]%string ->
  head_input_size cfg hs
  = merged_width (target_embeddings cfg) (pooled_width (pool_type cfg) hs).
Proof.
  intros Hp Hm. unfold head_input_size, merged_width, pooled_width.
  repeat (apply elem_of_cons in Hp as [->|Hp]);
    [..|by apply elem_of_nil in Hp];
    repeat (apply elem_of_cons in Hm as [->|Hm]);
    try (by apply elem_of_nil in Hm); simpl; lia.
Qed.

(** For a [pool_type] that only begins with "combined" the head is built
    for a smaller width than the one produced. *)
Lemma head_input_size_too_small cfg hs :
  String.prefix "combined" (pool_type cfg) = true ->
  pool_type cfg <> "combined"%string ->
  (0 < hs)%nat ->
  (head_input_size cfg hs
   < merged_width (target_embeddings cfg) (pooled_width (pool_type cfg) hs))%nat.
Proof.
  intros Hpre Hne Hhs. unfold head_input_size, merged_width, pooled_width.
  apply String.eqb_neq in Hne. rewrite Hne.
  assert (String.eqb (pool_type cfg) "mean" = false /\
          String.eqb (pool_type cfg) "max" = false /\
          String.eqb (pool_type cfg) "first" = false) as (-> & -> & ->).
  { repeat split; apply String.eqb_neq; intros Heq; rewrite Heq in Hpre;
      discriminate. }
  simpl.
  destruct (String.eqb_spec (target_embeddings cfg) "concat") as [->|_];
    [simpl; lia|].
  destruct (String.eqb_spec (target_embeddings cfg) "combined") as [->|_];
    [simpl; lia|].
  destruct (String.eqb (target_embeddings cfg) "featwise_mul"
            || String.eqb (target_embeddings cfg) "featwise_mul_norm"); lia.
Qed.


(** ** The two orientations with [symmetric] *)

(** With [symmetric] the same example gives two records: the one with
    "The cat sat" first, then the one with "A dog ran" first. *)
Example symmetric_gives_both_orientations :
  exists rA,
    convert_dataset_to_features (Toy.with_symmetric (Toy.cfg 16)) Toy.tok
      [Toy.ex_cat_dog] = Ok [rA; Toy.rec_cat_dog] /\
    take 4 (input_ids rA)
      = convert_tokens_to_ids Toy.tok ["<s>"; "The"; "cat"; "sat"] /\
    positions rA = [2; 3; 6; 7]%nat.
Proof.
  eexists. split; [vm_compute; reflexivity|].
  split; vm_compute; reflexivity.
Qed.

(** * Further properties of the feature builder *)

(** ** A pass does not depend on what was accumulated before *)

Lemma for_each_app {A S} (body : A -> S -> result S) (l1 l2 : list A) (st : S) :
  for_each body (l1 ++ l2) st
  = (st1 ← for_each body l1 st; for_each body l2 st1).
Proof.
  revert st. induction l1 as [|x l1 IH]; intros st; simpl; [done|].
  destruct (body x st) as [s1|e]; simpl; [apply IH | done].
Qed.

Lemma merge_states_initial_r st : merge_states st initial_state = st.
Proof.
  destruct st as [fs n]. unfold merge_states. simpl.
  by rewrite app_nil_r, Nat.add_0_r.
Qed.

Lemma merge_states_assoc a b c :
  merge_states (merge_states a b) c = merge_states a (merge_states b c).
Proof.
  unfold merge_states. simpl. by rewrite app_assoc, Nat.add_assoc.
Qed.

Lemma append_record_frame cfg tok ex ids table st :
  append_record cfg tok ex ids table st
  = (d ← append_record cfg tok ex ids table initial_state;
     Ok (merge_states st d)).
Proof.
  unfold append_record.
  destruct (pad_id tok) as [p|e]; simpl; [|done].
  destruct (record_label cfg ex) as [lab|e]; simpl; [|done].
  unfold merge_states. simpl. by rewrite Nat.add_0_r.
Qed.

Lemma encode_orientation_frame cfg tok ex o st :
  encode_orientation cfg tok ex o st
  = (d ← encode_orientation cfg tok ex o initial_state;
     Ok (merge_states st d)).
Proof.
  unfold encode_orientation.
  destruct (build_tokens cfg tok o) as [tp|e]; simpl; [|done].
  destruct (max_seq_len cfg <? _).
  - destruct (max_seq_len cfg - 1 <? _).
    + simpl. unfold merge_states, count_too_long. simpl.
      by rewrite app_nil_r, Nat.add_1_r.
    + rewrite append_record_frame.
      rewrite (append_record_frame _ _ _ _ _ (count_too_long initial_state)).
      destruct (append_record _ _ _ _ _ initial_state) as [d|e]; simpl;
        [|done].
      unfold merge_states, count_too_long. simpl.
      f_equal. f_equal. lia.
  - apply append_record_frame.
Qed.

Lemma example_step_frame cfg tok ex st :
  example_step cfg tok ex st
  = (d ← example_step cfg tok ex initial_state; Ok (merge_states st d)).
Proof.
  rewrite !example_step_unfold. destruct (symmetric cfg).
  - rewrite (encode_orientation_frame _ _ _ (role_A_first ex) st).
    destruct (encode_orientation cfg tok ex (role_A_first ex) initial_state)
      as [d1|e]; simpl; [|done].
    rewrite (encode_orientation_frame _ _ _ (role_B_first ex)
               (merge_states st d1)).
    rewrite (encode_orientation_frame _ _ _ (role_B_first ex) d1).
    destruct (encode_orientation cfg tok ex (role_B_first ex) initial_state)
      as [d2|e]; simpl; [|done].
    by rewrite merge_states_assoc.
  - apply encode_orientation_frame.
Qed.

Lemma pass_frame cfg tok examples st :
  for_each (example_step cfg tok) examples st
  = (d ← build_features cfg tok examples; Ok (merge_states st d)).
Proof.
  unfold build_features. revert st.
  induction examples as [|ex examples IH]; intros st; simpl.
  - by rewrite merge_states_initial_r.
  - rewrite example_step_frame.
    destruct (example_step cfg tok ex initial_state) as [d1|e]; simpl; [|done].
    rewrite IH, (IH d1).
    destruct (for_each (example_step cfg tok) examples initial_state)
      as [d2|e]; simpl; [|done].
    by rewrite merge_states_assoc.
Qed.

(** X1. The pass over two corpora one after the other is the pass over
    each of them, with the records of the first followed by those of the
    second and the two counters added; it fails where the first of the
    two passes to fail does. *)
Theorem build_features_app cfg tok (examples1 examples2 : list Example) :
  build_features cfg tok (examples1 ++ examples2)
  = (a ← build_features cfg tok examples1;
     b ← build_features cfg tok examples2;
     Ok (merge_states a b)).
Proof.
  unfold build_features at 1. rewrite for_each_app.
  fold (build_features cfg tok examples1).
  destruct (build_features cfg tok examples1) as [a|e]; simpl; [|done].
  apply pass_frame.
Qed.

(** ** What a pass counts and in which order it appends *)

Lemma encode_orientation_initial cfg tok ex o d :
  encode_orientation cfg tok ex o initial_state = Ok d ->
  num_too_long_exs d = Nat.b2n (too_long cfg tok o) /\
  ((dropped cfg tok o = true /\ features d = []) \/
   (dropped cfg tok o = false /\
    exists r, features d = [r] /\ emits cfg tok ex o r /\ example r = ex)).
Proof.
  intros Hr. unfold too_long, dropped.
  pose proof Hr as Hcase. apply encode_orientation_Ok in Hcase.
  unfold encode_orientation in Hr.
  destruct (build_tokens cfg tok o) as [[tokens table]|e] eqn:Hb;
    [|discriminate].
  simpl in *.
  destruct (max_seq_len cfg <? _) eqn:Hlong; simpl.
  - destruct (max_seq_len cfg - 1 <? _) eqn:Hpos; simpl.
    + inversion Hr; subst d. simpl. split; [done|]. by left.
    + apply append_record_Ok in Hr as (p & lab & Hp & Hlab & ->). simpl.
      split; [done|]. right. split; [done|].
      destruct Hcase as [Hnil | (r & Hem & Hfeat)]; [discriminate|].
      simpl in Hfeat. inversion Hfeat; subst r.
      eexists. split; [done|]. split; [done|].
      by destruct Hem as (? & ? & ? & ? & _ & _ & _ & _ & [=]).
  - apply append_record_Ok in Hr as (p & lab & Hp & Hlab & ->). simpl.
    split; [done|]. right. split; [done|].
    destruct Hcase as [Hnil | (r & Hem & Hfeat)]; [discriminate|].
    simpl in Hfeat. inversion Hfeat; subst r.
    eexists. split; [done|]. split; [done|].
    by destruct Hem as (? & ? & ? & ? & _ & _ & _ & _ & [=]).
Qed.

Lemma dropped_too_long cfg tok o :
  dropped cfg tok o = true -> too_long cfg tok o = true.
Proof.
  unfold dropped, too_long. destruct (build_tokens cfg tok o); [|done].
  by intros [? _]%andb_prop.
Qed.

(** The counts of one orientation. *)
Lemma encode_orientation_counts cfg tok ex o d :
  encode_orientation cfg tok ex o initial_state = Ok d ->
  num_too_long_exs d = count_if (too_long cfg tok) [o] /\
  length (features d) = count_if (fun o => negb (dropped cfg tok o)) [o] /\
  map example (features d) `sublist_of` [ex].
Proof.
  intros (Hnum & Hcase)%encode_orientation_initial.
  unfold count_if. simpl.
  split; [rewrite Hnum; by destruct (too_long cfg tok o)|].
  destruct Hcase as [[-> ->] | [-> (r & -> & _ & Hex)]]; simpl.
  - split; [done|]. apply sublist_nil_l.
  - split; [done|]. by rewrite Hex.
Qed.

Lemma count_if_app {A} (f : A -> bool) (l1 l2 : list A) :
  count_if f (l1 ++ l2) = (count_if f l1 + count_if f l2)%nat.
Proof. unfold count_if. by rewrite List.filter_app, length_app. Qed.

(** The counts of one example. *)
Lemma example_step_counts cfg tok ex d :
  example_step cfg tok ex initial_state = Ok d ->
  num_too_long_exs d
    = count_if (too_long cfg tok) (encoded_orientations cfg ex) /\
  length (features d)
    = count_if (fun o => negb (dropped cfg tok o))
        (encoded_orientations cfg ex) /\
  map example (features d)
    `sublist_of` map (fun _ => ex) (encoded_orientations cfg ex).
Proof.
  rewrite example_step_unfold. unfold encoded_orientations.
  destruct (symmetric cfg).
  - intros Hr. apply bind_Ok in Hr as (d1 & H1 & H2).
    rewrite encode_orientation_frame in H2.
    apply bind_Ok in H2 as (d2 & H2 & Hd). inversion Hd; subst d. simpl.
    apply encode_orientation_counts in H1 as (Hn1 & Hf1 & Hs1).
    apply encode_orientation_counts in H2 as (Hn2 & Hf2 & Hs2).
    change [role_A_first ex; role_B_first ex]
      with ([role_A_first ex] ++ [role_B_first ex]).
    rewrite !count_if_app, length_app, map_app.
    repeat split; [lia | lia |].
    change [ex; ex] with ([ex] ++ [ex]). by apply sublist_app.
  - apply encode_orientation_counts.
Qed.

Lemma build_features_cons cfg tok ex examples :
  build_features cfg tok (ex :: examples)
  = (a ← example_step cfg tok ex initial_state;
     b ← build_features cfg tok examples;
     Ok (merge_states a b)).
Proof.
  unfold build_features at 1. simpl.
  destruct (example_step cfg tok ex initial_state) as [a|e]; simpl; [|done].
  apply pass_frame.
Qed.

Lemma length_encoded_orientations cfg ex :
  length (encoded_orientations cfg ex) = if symmetric cfg then 2%nat else 1%nat.
Proof. unfold encoded_orientations. by destruct (symmetric cfg). Qed.

Lemma length_corpus_orientations cfg examples :
  length (corpus_orientations cfg examples)
  = ((if symmetric cfg then 2 else 1) * length examples)%nat.
Proof.
  unfold corpus_orientations.
  induction examples as [|ex examples IH]; simpl; [lia|].
  rewrite length_app, IH, length_encoded_orientations. lia.
Qed.

Lemma count_if_dropped_le cfg tok (os : list Orientation) :
  (length os
   <= count_if (fun o => negb (dropped cfg tok o)) os
      + count_if (too_long cfg tok) os)%nat.
Proof.
  unfold count_if. induction os as [|o os IH]; simpl; [lia|].
  destruct (dropped cfg tok o) eqn:Hd; simpl.
  - rewrite (dropped_too_long _ _ _ Hd). simpl. lia.
  - destruct (too_long cfg tok o); simpl; lia.
Qed.

Lemma count_if_le {A} (f : A -> bool) (l : list A) :
  (count_if f l <= length l)%nat.
Proof. unfold count_if. apply List.filter_length_le. Qed.

(** X2. After a pass that raised nothing, the too-long counter is the
    number of encoded orientations whose ids exceed [max_seq_len], and
    the number of records is the number of encoded orientations that were
    not dropped. So every encoded orientation is counted, or has a
    record, or both; neither number is above the one or two orientations
    per example. *)
Theorem pass_accounting cfg tok examples st :
  build_features cfg tok examples = Ok st ->
  let os := corpus_orientations cfg examples in
  num_too_long_exs st = count_if (too_long cfg tok) os /\
  length (features st) = count_if (fun o => negb (dropped cfg tok o)) os /\
  length os = ((if symmetric cfg then 2 else 1) * length examples)%nat /\
  (length os <= length (features st) + num_too_long_exs st)%nat /\
  (length (features st) <= length os)%nat /\
  (num_too_long_exs st <= length os)%nat.
Proof.
  intros Hst os.
  assert (Hmain : num_too_long_exs st = count_if (too_long cfg tok) os /\
            length (features st)
            = count_if (fun o => negb (dropped cfg tok o)) os).
  { subst os. revert st Hst.
    induction examples as [|ex examples IH]; intros st Hst.
    - inversion Hst. by subst st.
    - rewrite build_features_cons in Hst.
      apply bind_Ok in Hst as (a & Ha & Hst).
      apply bind_Ok in Hst as (b & Hb & Hst). inversion Hst; subst st.
      apply example_step_counts in Ha as (Hna & Hfa & _).
      destruct (IH b Hb) as [Hnb Hfb].
      unfold corpus_orientations in *. simpl.
      rewrite !count_if_app, length_app. lia. }
  destruct Hmain as [Hn Hf]. rewrite Hn, Hf.
  repeat split.
  - apply length_corpus_orientations.
  - apply count_if_dropped_le.
  - apply count_if_le.
  - apply count_if_le.
Qed.

Lemma pass_accounting_witness :
  let os := corpus_orientations (Toy.cfg 6) [Toy.ex_tail; Toy.ex_cat_dog] in
  num_too_long_exs
    {| features := [Toy.rec_tail]; num_too_long_exs := 2 |}
    = count_if (too_long (Toy.cfg 6) Toy.tok) os /\
  length (features {| features := [Toy.rec_tail]; num_too_long_exs := 2 |})
    = count_if (fun o => negb (dropped (Toy.cfg 6) Toy.tok o)) os /\
  length os
    = ((if symmetric (Toy.cfg 6) then 2 else 1)
       * length [Toy.ex_tail; Toy.ex_cat_dog])%nat /\
  (length os
   <= length (features {| features := [Toy.rec_tail];
                          num_too_long_exs := 2 |})
      + num_too_long_exs {| features := [Toy.rec_tail];
                            num_too_long_exs := 2 |})%nat /\
  (length (features {| features := [Toy.rec_tail]; num_too_long_exs := 2 |})
   <= length os)%nat /\
  (num_too_long_exs {| features := [Toy.rec_tail]; num_too_long_exs := 2 |}
   <= length os)%nat.
Proof.
  apply (pass_accounting (Toy.cfg 6) Toy.tok [Toy.ex_tail; Toy.ex_cat_dog]
           {| features := [Toy.rec_tail]; num_too_long_exs := 2 |}).
  vm_compute. reflexivity.
Defined.

(** X3. The records follow the corpus: the source examples of the
    records, in the order of the records, are the source examples of the
    encoded orientations with some of them left out. Without [symmetric]
    they are a subsequence of the corpus itself. *)
Theorem records_follow_corpus cfg tok examples st :
  build_features cfg tok examples = Ok st ->
  map example (features st) `sublist_of` corpus_sources cfg examples /\
  (symmetric cfg = false ->
   map example (features st) `sublist_of` examples).
Proof.
  intros Hst.
  assert (Hmain : map example (features st)
                  `sublist_of` corpus_sources cfg examples).
  { revert st Hst.
    induction examples as [|ex examples IH]; intros st Hst.
    - inversion Hst. by subst st.
    - rewrite build_features_cons in Hst.
      apply bind_Ok in Hst as (a & Ha & Hst).
      apply bind_Ok in Hst as (b & Hb & Hst). inversion Hst; subst st.
      apply example_step_counts in Ha as (_ & _ & Hsa).
      unfold corpus_sources. simpl. rewrite map_app.
      apply sublist_app; [done | by apply IH]. }
  split; [done|]. intros Hsym.
  assert (Hsrc : corpus_sources cfg examples = examples).
  { unfold corpus_sources, encoded_orientations. rewrite Hsym. simpl.
    clear. induction examples as [|ex examples IH]; simpl; [done|].
    by rewrite IH. }
  by rewrite Hsrc in Hmain.
Qed.

Lemma records_follow_corpus_witness :
  map example
    (features {| features := [Toy.rec_tail]; num_too_long_exs := 2 |})
    `sublist_of` corpus_sources (Toy.cfg 6) [Toy.ex_tail; Toy.ex_cat_dog] /\
  (symmetric (Toy.cfg 6) = false ->
   map example
     (features {| features := [Toy.rec_tail]; num_too_long_exs := 2 |})
     `sublist_of` [Toy.ex_tail; Toy.ex_cat_dog]).
Proof.
  apply (records_follow_corpus (Toy.cfg 6) Toy.tok
           [Toy.ex_tail; Toy.ex_cat_dog]
           {| features := [Toy.rec_tail]; num_too_long_exs := 2 |}).
  vm_compute. reflexivity.
Defined.

(** ** The layout of a token sequence *)

Lemma written_table_ext n t s a b c d a' b' c' d' :
  a = a' -> b = b' -> c = c' -> d = d' ->
  written_table n t s a b c d = written_table n t s a' b' c' d'.
Proof. by intros -> -> -> ->. Qed.

Lemma build_tokens_layout_table cfg tok o tokens table :
  build_tokens cfg tok o = Ok (tokens, table) ->
  let L1 := text_tokens tok (str_upto (o_sent1 o) (o_st1 o)) in
  let S1 := span_tokens cfg tok (str_slice (o_sent1 o) (o_st1 o) (o_end1 o)) in
  let R1 := text_tokens_sep tok (str_from (o_sent1 o) (o_end1 o)) in
  let L2 := text_tokens tok (str_upto (o_sent2 o) (o_st2 o)) in
  let S2 := span_tokens cfg tok (str_slice (o_sent2 o) (o_st2 o) (o_end2 o)) in
  let R2 := text_tokens_sep tok (str_from (o_sent2 o) (o_end2 o)) in
  exists t s : nat,
    syns cfg !! t = Some "Target"%string /\
    syns cfg !! s = Some "Synonym"%string /\
    syns_lab_to_pos (syns cfg) !! "Target"%string = Some t /\
    syns_lab_to_pos (syns cfg) !! "Synonym"%string = Some s /\
    tokens = [cls_token tok] ++ L1 ++ S1 ++ R1 ++ L2 ++ S2 ++ R2 /\
    table = written_table (length (syns cfg)) t s
              (1 + length L1) (1 + length L1 + length S1)
              (1 + length L1 + length S1 + length R1 + length L2)
              (1 + length L1 + length S1 + length R1 + length L2 + length S2).
Proof.
  unfold build_tokens, text_tokens, text_tokens_sep. cbv zeta. intros Hr.
  apply bind_Ok in Hr as (t & Ht & Hr).
  apply bind_Ok in Hr as (s & Hs & Hr).
  unfold dict_get in Ht, Hs.
  destruct (syns_lab_to_pos (syns cfg) !! "Target"%string) as [t'|] eqn:Et;
    [|discriminate].
  destruct (syns_lab_to_pos (syns cfg) !! "Synonym"%string) as [s'|] eqn:Es;
    [|discriminate].
  inversion Ht; inversion Hs; subst t' s'. inversion Hr; subst tokens table.
  exists t, s.
  split; [by apply syns_lab_to_pos_Some|].
  split; [by apply syns_lab_to_pos_Some|].
  split; [done|]. split; [done|].
  split.
  - repeat (destruct (truthy _)); simpl;
      rewrite <- ?app_assoc, ?app_nil_r; reflexivity.
  - apply (written_table_ext (length (syns cfg)) t s);
      repeat (destruct (truthy _)); rewrite ?length_app; simpl; lia.
Qed.

Lemma tokens_between_middle (pre mid post : list string) (a b : nat) :
  a = length pre -> b = (a + length mid)%nat ->
  tokens_between (pre ++ mid ++ post) a b = mid.
Proof.
  intros -> ->. unfold tokens_between.
  rewrite app_assoc, take_app_length' by (rewrite length_app; lia).
  by rewrite drop_app_length.
Qed.

(** The bounds that the table holds for the two spans. *)
Lemma build_tokens_span_bounds cfg tok o tokens table :
  build_tokens cfg tok o = Ok (tokens, table) ->
  let L1 := text_tokens tok (str_upto (o_sent1 o) (o_st1 o)) in
  let S1 := span_tokens cfg tok (str_slice (o_sent1 o) (o_st1 o) (o_end1 o)) in
  let R1 := text_tokens_sep tok (str_from (o_sent1 o) (o_end1 o)) in
  let L2 := text_tokens tok (str_upto (o_sent2 o) (o_st2 o)) in
  let S2 := span_tokens cfg tok (str_slice (o_sent2 o) (o_st2 o) (o_end2 o)) in
  let R2 := text_tokens_sep tok (str_from (o_sent2 o) (o_end2 o)) in
  tokens = [cls_token tok] ++ L1 ++ S1 ++ R1 ++ L2 ++ S2 ++ R2 /\
  span_pair cfg table "Target"
    = Some ((1 + length L1)%nat, (1 + length L1 + length S1)%nat) /\
  span_pair cfg table "Synonym"
    = Some ((1 + length L1 + length S1 + length R1 + length L2)%nat,
            (1 + length L1 + length S1 + length R1 + length L2
             + length S2)%nat).
Proof.
  intros Hb L1 S1 R1 L2 S2 R2.
  destruct (build_tokens_layout_table _ _ _ _ _ Hb)
    as (t & s & Ht' & Hs' & Ht & Hs & Htok & Htab).
  fold L1 S1 R1 L2 S2 R2 in Htok, Htab.
  split; [done|].
  pose proof (table_target (syns cfg) t s
    (1 + length L1) (1 + length L1 + length S1)
    (1 + length L1 + length S1 + length R1 + length L2)
    (1 + length L1 + length S1 + length R1 + length L2 + length S2)
    Ht' Hs') as [Ha Hb'].
  pose proof (table_synonym (syns cfg) t s
    (1 + length L1) (1 + length L1 + length S1)
    (1 + length L1 + length S1 + length R1 + length L2)
    (1 + length L1 + length S1 + length R1 + length L2 + length S2)
    Hs') as [Hc Hd].
  rewrite <- Htab in Ha, Hb', Hc, Hd.
  unfold span_pair. rewrite Ht, Hs. simpl.
  by rewrite Ha, Hb', Hc, Hd.
Qed.

(** The two spans of a sequence laid out in seven pieces. *)
Lemma layout_slices (c : string) (L1 S1 R1 L2 S2 R2 : list string) :
  let tokens := [c] ++ L1 ++ S1 ++ R1 ++ L2 ++ S2 ++ R2 in
  tokens_between tokens (1 + length L1) (1 + length L1 + length S1) = S1 /\
  tokens_between tokens
    (1 + length L1 + length S1 + length R1 + length L2)
    (1 + length L1 + length S1 + length R1 + length L2 + length S2) = S2.
Proof.
  intros tokens. subst tokens. split.
  - replace ([c] ++ L1 ++ S1 ++ R1 ++ L2 ++ S2 ++ R2)
      with (([c] ++ L1) ++ S1 ++ (R1 ++ L2 ++ S2 ++ R2))
      by (by rewrite <- !app_assoc).
    apply tokens_between_middle; rewrite ?length_app; simpl; lia.
  - replace ([c] ++ L1 ++ S1 ++ R1 ++ L2 ++ S2 ++ R2)
      with (([c] ++ L1 ++ S1 ++ R1 ++ L2) ++ S2 ++ R2)
      by (by rewrite <- !app_assoc).
    apply tokens_between_middle; rewrite ?length_app; simpl; lia.
Qed.

(** X4. The token sequence of an orientation is the start token, the
    tokens before the first span, the span, the rest of the first
    sentence with a separator, then the same three pieces of the second
    sentence; a piece of empty text is left out with its separator. The
    table holds the bounds of the two spans in this sequence: the tokens
    from start to end of a role are the tokens of its span, or as many
    mask tokens with [mask_syns]. *)
Theorem token_layout cfg tok o tokens table :
  build_tokens cfg tok o = Ok (tokens, table) ->
  let L1 := text_tokens tok (str_upto (o_sent1 o) (o_st1 o)) in
  let S1 := span_tokens cfg tok (str_slice (o_sent1 o) (o_st1 o) (o_end1 o)) in
  let R1 := text_tokens_sep tok (str_from (o_sent1 o) (o_end1 o)) in
  let L2 := text_tokens tok (str_upto (o_sent2 o) (o_st2 o)) in
  let S2 := span_tokens cfg tok (str_slice (o_sent2 o) (o_st2 o) (o_end2 o)) in
  let R2 := text_tokens_sep tok (str_from (o_sent2 o) (o_end2 o)) in
  tokens = [cls_token tok] ++ L1 ++ S1 ++ R1 ++ L2 ++ S2 ++ R2 /\
  exists a b c d : nat,
    span_pair cfg table "Target" = Some (a, b) /\
    span_pair cfg table "Synonym" = Some (c, d) /\
    tokens_between tokens a b = S1 /\
    tokens_between tokens c d = S2.
Proof.
  intros Hb L1 S1 R1 L2 S2 R2.
  destruct (build_tokens_span_bounds _ _ _ _ _ Hb) as (Htok & Hab & Hcd).
  fold L1 S1 R1 L2 S2 R2 in Htok, Hab, Hcd.
  split; [done|].
  destruct (layout_slices (cls_token tok) L1 S1 R1 L2 S2 R2) as [Hs1 Hs2].
  rewrite <- Htok in Hs1, Hs2.
  eexists _, _, _, _. split; [exact Hab|]. split; [exact Hcd|]. by split.
Qed.

Lemma token_layout_witness :
  let o := role_B_first Toy.ex_cat_dog in
  let L1 := text_tokens Toy.tok (str_upto (o_sent1 o) (o_st1 o)) in
  let S1 := span_tokens (Toy.cfg 16) Toy.tok
              (str_slice (o_sent1 o) (o_st1 o) (o_end1 o)) in
  let R1 := text_tokens_sep Toy.tok (str_from (o_sent1 o) (o_end1 o)) in
  let L2 := text_tokens Toy.tok (str_upto (o_sent2 o) (o_st2 o)) in
  let S2 := span_tokens (Toy.cfg 16) Toy.tok
              (str_slice (o_sent2 o) (o_st2 o) (o_end2 o)) in
  let R2 := text_tokens_sep Toy.tok (str_from (o_sent2 o) (o_end2 o)) in
  ["<s>"; "A"; "dog"; "ran"; "</s>"; "The"; "cat"; "sat"; "</s>"]%string
    = [cls_token Toy.tok] ++ L1 ++ S1 ++ R1 ++ L2 ++ S2 ++ R2 /\
  exists a b c d : nat,
    span_pair (Toy.cfg 16) [2; 3; 6; 7]%nat "Target" = Some (a, b) /\
    span_pair (Toy.cfg 16) [2; 3; 6; 7]%nat "Synonym" = Some (c, d) /\
    tokens_between
      ["<s>"; "A"; "dog"; "ran"; "</s>"; "The"; "cat"; "sat"; "</s>"]%string
      a b = S1 /\
    tokens_between
      ["<s>"; "A"; "dog"; "ran"; "</s>"; "The"; "cat"; "sat"; "</s>"]%string
      c d = S2.
Proof.
  apply (token_layout (Toy.cfg 16) Toy.tok (role_B_first Toy.ex_cat_dog)
           ["<s>"; "A"; "dog"; "ran"; "</s>"; "The"; "cat"; "sat"; "</s>"]%string
           [2; 3; 6; 7]%nat).
  vm_compute. reflexivity.
Defined.

(** The closed form of [build_tokens]. *)
Lemma build_tokens_closed_form cfg tok o :
  let L1 := text_tokens tok (str_upto (o_sent1 o) (o_st1 o)) in
  let S1 := span_tokens cfg tok (str_slice (o_sent1 o) (o_st1 o) (o_end1 o)) in
  let R1 := text_tokens_sep tok (str_from (o_sent1 o) (o_end1 o)) in
  let L2 := text_tokens tok (str_upto (o_sent2 o) (o_st2 o)) in
  let S2 := span_tokens cfg tok (str_slice (o_sent2 o) (o_st2 o) (o_end2 o)) in
  let R2 := text_tokens_sep tok (str_from (o_sent2 o) (o_end2 o)) in
  build_tokens cfg tok o
  = (t ← dict_get (syns_lab_to_pos (syns cfg)) "Target";
     s ← dict_get (syns_lab_to_pos (syns cfg)) "Synonym";
     Ok ([cls_token tok] ++ L1 ++ S1 ++ R1 ++ L2 ++ S2 ++ R2,
         written_table (length (syns cfg)) t s
           (1 + length L1) (1 + length L1 + length S1)
           (1 + length L1 + length S1 + length R1 + length L2)
           (1 + length L1 + length S1 + length R1 + length L2 + length S2))).
Proof.
  intros L1 S1 R1 L2 S2 R2.
  destruct (build_tokens cfg tok o) as [[tokens table]|e] eqn:Hb.
  - destruct (build_tokens_layout_table _ _ _ _ _ Hb)
      as (t & s & _ & _ & Ht & Hs & -> & ->).
    unfold dict_get. rewrite Ht. simpl. by rewrite Hs.
  - revert Hb. unfold build_tokens, dict_get. cbv zeta.
    destruct (syns_lab_to_pos (syns cfg) !! "Target"%string); simpl;
      [|done].
    destruct (syns_lab_to_pos (syns cfg) !! "Synonym"%string); simpl; done.
Qed.

Lemma length_span_tokens cfg tok target :
  length (span_tokens cfg tok target) = length (tokenize tok target).
Proof.
  unfold span_tokens. destruct (mask_syns cfg); [|done].
  apply length_replicate.
Qed.

(** X5. Masking the spans moves nothing: two configurations with the same
    roles, whatever their [mask_syns], give an orientation the same
    position table and token sequences of the same length; under
    [mask_syns] the tokens of each span are mask tokens, one for each
    sub-token. *)
Theorem mask_syns_keeps_positions cfg cfg' tok o tokens table :
  syns cfg' = syns cfg ->
  build_tokens cfg tok o = Ok (tokens, table) ->
  (exists tokens',
     build_tokens cfg' tok o = Ok (tokens', table) /\
     length tokens' = length tokens) /\
  (mask_syns cfg = true ->
   exists a b c d : nat,
     span_pair cfg table "Target" = Some (a, b) /\
     span_pair cfg table "Synonym" = Some (c, d) /\
     tokens_between tokens a b = replicate (b - a) (mask_token tok) /\
     tokens_between tokens c d = replicate (d - c) (mask_token tok)).
Proof.
  intros Hsyns Hb. split.
  - pose proof (build_tokens_closed_form cfg tok o) as Hc.
    pose proof (build_tokens_closed_form cfg' tok o) as Hc'.
    cbv zeta in Hc, Hc'. rewrite Hb in Hc. rewrite Hc', Hsyns. clear Hc'.
    rewrite !length_span_tokens in Hc. rewrite !length_span_tokens.
    destruct (dict_get (syns_lab_to_pos (syns cfg)) "Target") as [t|e];
      [|discriminate].
    destruct (dict_get (syns_lab_to_pos (syns cfg)) "Synonym") as [s|e];
      [|discriminate].
    simpl in *. inversion Hc; subst tokens table.
    eexists. split; [reflexivity|].
    simpl. rewrite !length_app, !length_span_tokens. done.
  - intros Hmask.
    destruct (build_tokens_span_bounds _ _ _ _ _ Hb) as (Htok & Hab & Hcd).
    cbv zeta in Htok, Hab, Hcd.
    set (L1 := text_tokens tok (str_upto (o_sent1 o) (o_st1 o))) in *.
    set (S1 := span_tokens cfg tok
                 (str_slice (o_sent1 o) (o_st1 o) (o_end1 o))) in *.
    set (R1 := text_tokens_sep tok (str_from (o_sent1 o) (o_end1 o))) in *.
    set (L2 := text_tokens tok (str_upto (o_sent2 o) (o_st2 o))) in *.
    set (S2 := span_tokens cfg tok
                 (str_slice (o_sent2 o) (o_st2 o) (o_end2 o))) in *.
    set (R2 := text_tokens_sep tok (str_from (o_sent2 o) (o_end2 o))) in *.
    destruct (layout_slices (cls_token tok) L1 S1 R1 L2 S2 R2) as [Hs1 Hs2].
    rewrite <- Htok in Hs1, Hs2.
    eexists _, _, _, _. split; [exact Hab|]. split; [exact Hcd|].
    rewrite Hs1, Hs2.
    assert (Hmasked : forall target,
              span_tokens cfg tok target
              = replicate (length (span_tokens cfg tok target))
                  (mask_token tok)).
    { intros target. unfold span_tokens. rewrite Hmask.
      by rewrite length_replicate. }
    split.
    + subst S1. rewrite Hmasked at 1. f_equal. lia.
    + subst S2. rewrite Hmasked at 1. f_equal. lia.
Qed.

Lemma mask_syns_keeps_positions_witness :
  (exists tokens',
     build_tokens (Toy.cfg 16) Toy.tok
       (role_B_first Toy.ex_cat_dog) = Ok (tokens', [2; 3; 6; 7]%nat) /\
     length tokens'
     = length ["<s>"; "A"; "<mask>"; "ran"; "</s>";
               "The"; "<mask>"; "sat"; "</s>"]%string) /\
  (mask_syns (Toy.with_mask_syns (Toy.cfg 16)) = true ->
   exists a b c d : nat,
     span_pair (Toy.with_mask_syns (Toy.cfg 16)) [2; 3; 6; 7]%nat "Target"
       = Some (a, b) /\
     span_pair (Toy.with_mask_syns (Toy.cfg 16)) [2; 3; 6; 7]%nat "Synonym"
       = Some (c, d) /\
     tokens_between ["<s>"; "A"; "<mask>"; "ran"; "</s>";
                     "The"; "<mask>"; "sat"; "</s>"]%string a b
       = replicate (b - a) (mask_token Toy.tok) /\
     tokens_between ["<s>"; "A"; "<mask>"; "ran"; "</s>";
                     "The"; "<mask>"; "sat"; "</s>"]%string c d
       = replicate (d - c) (mask_token Toy.tok)).
Proof.
  apply (mask_syns_keeps_positions (Toy.with_mask_syns (Toy.cfg 16))
           (Toy.cfg 16) Toy.tok
           (role_B_first Toy.ex_cat_dog)).
  - reflexivity.
  - vm_compute. reflexivity.
Defined.

(** ** The roles of the table *)

Lemma syns_lab_to_pos_None (roles : list string) (lab : string) :
  lab ∉ roles -> syns_lab_to_pos roles !! lab = None.
Proof.
  unfold syns_lab_to_pos.
  induction roles as [|x roles IH] using rev_ind; intros Hnot.
  - apply lookup_empty.
  - rewrite enumerate_snoc, foldl_app. simpl.
    rewrite lookup_insert_ne
      by (intros ->; apply Hnot, elem_of_app; right; left).
    apply IH. intros Hin. apply Hnot, elem_of_app. by left.
Qed.

Lemma syns_lab_to_pos_is_Some (roles : list string) (lab : string) :
  lab ∈ roles -> is_Some (syns_lab_to_pos roles !! lab).
Proof.
  unfold syns_lab_to_pos.
  induction roles as [|x roles IH] using rev_ind; intros Hin.
  - by apply elem_of_nil in Hin.
  - rewrite enumerate_snoc, foldl_app. simpl.
    destruct (decide (x = lab)) as [->|Hne].
    + rewrite lookup_insert_eq. by eexists.
    + rewrite lookup_insert_ne by done. apply IH.
      apply elem_of_app in Hin as [Hin | Hin]; [done|].
      apply list_elem_of_singleton in Hin. congruence.
Qed.

(** The role whose lookup fails first, if one does. *)
Lemma build_tokens_missing_role cfg tok o :
  ~ ("Target"%string ∈ syns cfg /\ "Synonym"%string ∈ syns cfg) ->
  build_tokens cfg tok o
  = Err (KeyError (if bool_decide ("Target"%string ∈ syns cfg)
                   then "Synonym" else "Target")).
Proof.
  intros Hmiss. rewrite build_tokens_closed_form. unfold dict_get.
  case_bool_decide as Ht.
  - destruct (syns_lab_to_pos_is_Some _ _ Ht) as [t ->]. simpl.
    rewrite syns_lab_to_pos_None; [reflexivity|].
    intros Hs. by apply Hmiss.
  - rewrite (syns_lab_to_pos_None _ _ Ht). reflexivity.
Qed.

(** X6. The roles "Target" and "Synonym" must both be in [syns]: if one
    is missing, a pass over a corpus that is not empty raises [KeyError]
    on its first example, with "Target" as the key when it is the one
    missing and "Synonym" otherwise. *)
Theorem missing_role_raises_KeyError cfg tok ex examples :
  ~ ("Target"%string ∈ syns cfg /\ "Synonym"%string ∈ syns cfg) ->
  convert_dataset_to_features cfg tok (ex :: examples)
  = Err (KeyError (if bool_decide ("Target"%string ∈ syns cfg)
                   then "Synonym" else "Target")).
Proof.
  intros Hmiss. unfold convert_dataset_to_features.
  rewrite build_features_cons, example_step_unfold.
  unfold encode_orientation.
  rewrite !(build_tokens_missing_role cfg tok _ Hmiss).
  by destruct (symmetric cfg).
Qed.

Lemma missing_role_raises_KeyError_witness :
  convert_dataset_to_features (Toy.with_syns (Toy.cfg 16) ["Target"])
    Toy.tok [Toy.ex_cat_dog]
  = Err (KeyError
           (if bool_decide ("Target"%string
                            ∈ syns (Toy.with_syns (Toy.cfg 16) ["Target"]))
            then "Synonym" else "Target")).
Proof.
  apply (missing_role_raises_KeyError (Toy.with_syns (Toy.cfg 16) ["Target"])
           Toy.tok Toy.ex_cat_dog []).
  intros [_ Hs]. simpl in Hs. apply list_elem_of_singleton in Hs.
  discriminate.
Defined.

(** X7. The position table of every record has two slots for each role
    of [syns], and the slots of every role other than "Target" and
    "Synonym" hold 0. *)
Theorem other_roles_stay_zero cfg tok examples feats r :
  convert_dataset_to_features cfg tok examples = Ok feats ->
  r ∈ feats ->
  length (positions r) = (2 * length (syns cfg))%nat /\
  forall k : nat,
    (k < length (syns cfg))%nat ->
    syns_lab_to_pos (syns cfg) !! "Target"%string <> Some k ->
    syns_lab_to_pos (syns cfg) !! "Synonym"%string <> Some k ->
    positions r !! (k * 2)%nat = Some 0%nat /\
    positions r !! (k * 2 + 1)%nat = Some 0%nat.
Proof.
  intros Hrun Hr.
  destruct (produced_from_corpus _ _ _ _ _ Hrun Hr)
    as (ex & o & _ & _ & tokens & table & p & lab & Hb & _ & _ & _ & ->).
  simpl.
  apply build_tokens_table in Hb
    as (t & s & a & b & c & d & Ht & Hs & -> & _).
  unfold written_table. split; [by rewrite !length_insert, length_replicate|].
  intros k Hk Hkt Hks.
  assert (k <> t) by congruence. assert (k <> s) by congruence.
  split; rewrite !list_lookup_insert_ne by lia;
    apply lookup_replicate_2; lia.
Qed.

Lemma other_roles_stay_zero_witness :
  length (positions Toy.rec_three_roles)
  = (2 * length (syns (Toy.with_syns (Toy.cfg 16)
                         ["Target"; "Other"; "Synonym"])))%nat /\
  forall k : nat,
    (k < length (syns (Toy.with_syns (Toy.cfg 16)
                         ["Target"; "Other"; "Synonym"])))%nat ->
    syns_lab_to_pos (syns (Toy.with_syns (Toy.cfg 16)
                             ["Target"; "Other"; "Synonym"]))
      !! "Target"%string <> Some k ->
    syns_lab_to_pos (syns (Toy.with_syns (Toy.cfg 16)
                             ["Target"; "Other"; "Synonym"]))
      !! "Synonym"%string <> Some k ->
    positions Toy.rec_three_roles !! (k * 2)%nat = Some 0%nat /\
    positions Toy.rec_three_roles !! (k * 2 + 1)%nat = Some 0%nat.
Proof.
  apply (other_roles_stay_zero
           (Toy.with_syns (Toy.cfg 16) ["Target"; "Other"; "Synonym"])
           Toy.tok [Toy.ex_cat_dog] [Toy.rec_three_roles]).
  - vm_compute. reflexivity.
  - left.
Defined.

(** ** The label of a record *)

Lemma syn_label_to_id_Some (l : string) (n : Z) :
  syn_label_to_id !! l = Some n ->
  (l = "T"%string /\ n = 1) \/ (l = "F"%string /\ n = 0).
Proof.
  unfold syn_label_to_id. intros Hl.
  apply lookup_insert_Some in Hl as [[<- <-] | [_ Hl]]; [by right|].
  apply lookup_insert_Some in Hl as [[<- <-] | [_ Hl]]; [by left|].
  by rewrite lookup_empty in Hl.
Qed.

(** X8. The label of every record comes from its source example: without
    [train_scd] the example is labelled "T" and the record has the id 1,
    or it is labelled "F" and the record has the id 0; with [train_scd]
    the loss is "mse_loss" and the record has the score of the example. *)
Theorem record_label_from_example cfg tok examples feats r :
  convert_dataset_to_features cfg tok examples = Ok feats ->
  r ∈ feats ->
  example r ∈ examples /\
  if train_scd cfg
  then loss cfg = "mse_loss"%string /\
       syn_label r = LabelScore (score (example r))
  else (label (example r) = "T"%string /\ syn_label r = LabelId 1) \/
       (label (example r) = "F"%string /\ syn_label r = LabelId 0).
Proof.
  intros Hrun Hr.
  destruct (produced_from_corpus _ _ _ _ _ Hrun Hr)
    as (ex & o & Hex & _ & tokens & table & p & lab & _ & _ & Hlab & _ & ->).
  simpl. split; [done|].
  unfold record_label in Hlab. destruct (train_scd cfg).
  - destruct (String.eqb_spec (loss cfg) "mse_loss") as [Hl|_];
      [|discriminate].
    by inversion Hlab.
  - apply bind_Ok in Hlab as (n & Hn & Hlab). inversion Hlab; subst lab.
    unfold dict_get in Hn.
    destruct (syn_label_to_id !! label ex) as [n'|] eqn:Hl; [|discriminate].
    inversion Hn; subst n'.
    apply syn_label_to_id_Some in Hl as [[-> ->] | [-> ->]];
      [by left | by right].
Qed.

Lemma record_label_from_example_witness :
  example Toy.rec_cat_dog ∈ [Toy.ex_cat_dog] /\
  if train_scd (Toy.cfg 16)
  then loss (Toy.cfg 16) = "mse_loss"%string /\
       syn_label Toy.rec_cat_dog = LabelScore (score (example Toy.rec_cat_dog))
  else (label (example Toy.rec_cat_dog) = "T"%string /\
        syn_label Toy.rec_cat_dog = LabelId 1) \/
       (label (example Toy.rec_cat_dog) = "F"%string /\
        syn_label Toy.rec_cat_dog = LabelId 0).
Proof.
  apply (record_label_from_example (Toy.cfg 16) Toy.tok [Toy.ex_cat_dog]
           [Toy.rec_cat_dog]).
  - vm_compute. reflexivity.
  - left.
Defined.

Lemma syn_label_to_id_None (l : string) :
  l <> "T"%string -> l <> "F"%string -> syn_label_to_id !! l = None.
Proof.
  intros HT HF. unfold syn_label_to_id.
  rewrite !lookup_insert_ne by done. apply lookup_empty.
Qed.

(** X9. Without [train_scd], a label that is neither "T" nor "F" is
    looked up only when a record is about to be appended: the first
    example of a corpus raises [KeyError] with its label when its first
    encoded orientation is built, is not dropped and the pad id is
    found. *)
Theorem unknown_label_raises_KeyError cfg tok ex examples o tokens table p :
  train_scd cfg = false ->
  label ex <> "T"%string -> label ex <> "F"%string ->
  head (encoded_orientations cfg ex) = Some o ->
  build_tokens cfg tok o = Ok (tokens, table) ->
  dropped cfg tok o = false ->
  pad_id tok = Ok p ->
  convert_dataset_to_features cfg tok (ex :: examples)
  = Err (KeyError (label ex)).
Proof.
  intros Hscd HT HF Ho Hb Hdrop Hp.
  assert (Hrec : forall ids s,
            append_record cfg tok ex ids table s = Err (KeyError (label ex))).
  { intros ids s. unfold append_record, record_label, dict_get.
    by rewrite Hp, Hscd, syn_label_to_id_None. }
  assert (Henc : forall s,
            encode_orientation cfg tok ex o s = Err (KeyError (label ex))).
  { intros s. unfold encode_orientation. rewrite Hb. simpl.
    unfold dropped in Hdrop. rewrite Hb in Hdrop. simpl in Hdrop.
    destruct (max_seq_len cfg <? _); [|apply Hrec].
    simpl in Hdrop. rewrite Hdrop. apply Hrec. }
  unfold convert_dataset_to_features.
  rewrite build_features_cons, example_step_unfold.
  unfold encoded_orientations in Ho.
  destruct (symmetric cfg); inversion Ho; subst o; by rewrite Henc.
Qed.

Lemma unknown_label_raises_KeyError_witness :
  convert_dataset_to_features (Toy.cfg 16) Toy.tok [Toy.ex_unlabelled]
  = Err (KeyError (label Toy.ex_unlabelled)).
Proof.
  apply (unknown_label_raises_KeyError (Toy.cfg 16) Toy.tok
           Toy.ex_unlabelled [] (role_B_first Toy.ex_unlabelled)
           ["<s>"; "a"; "dog"; "a"; "cat"]%string [2; 3; 4; 5]%nat 1).
  - reflexivity.
  - discriminate.
  - discriminate.
  - reflexivity.
  - vm_compute. reflexivity.
  - vm_compute. reflexivity.
  - vm_compute. reflexivity.
Defined.

(** ** A [max_seq_len] that is not positive *)

(** X10. With a tokenizer that gives one id per token and a
    [max_seq_len] that is zero or negative, every orientation is too long
    and dropped: no pass builds a record, and
    [convert_dataset_to_features] never returns a list. *)
Theorem nonpositive_max_seq_len_builds_nothing cfg tok examples :
  ids_per_token tok ->
  max_seq_len cfg <= 0 ->
  (forall st, build_features cfg tok examples = Ok st -> features st = []) /\
  exists e, convert_dataset_to_features cfg tok examples = Err e.
Proof.
  intros Htok Hmsl.
  assert (Hnone : forall st,
            build_features cfg tok examples = Ok st -> features st = []).
  { intros st Hst. apply build_features_from_corpus in Hst.
    destruct (features st) as [|r rs]; [done|].
    apply Forall_cons in Hst as [(ex & o & _ & _ & Hem) _].
    destruct Hem as (tokens & table & p & lab & Hb & _ & _ & Hkeep & _).
    destruct (build_tokens_spans _ _ _ _ _ Hb)
      as (a & b & c & d & _ & _ & Hord & Hmax).
    rewrite Htok, Hmax in Hkeep. lia. }
  split; [done|]. unfold convert_dataset_to_features.
  destruct (build_features cfg tok examples) as [st|e] eqn:Hst; simpl;
    [|by eexists].
  unfold not_fitted_percentage. rewrite (Hnone st eq_refl). simpl.
  by eexists.
Qed.

Lemma nonpositive_max_seq_len_builds_nothing_witness :
  (forall st, build_features (Toy.cfg 0) Toy.tok [Toy.ex_cat_dog] = Ok st ->
              features st = []) /\
  exists e, convert_dataset_to_features (Toy.cfg 0) Toy.tok [Toy.ex_cat_dog]
            = Err e.
Proof.
  apply (nonpositive_max_seq_len_builds_nothing (Toy.cfg 0) Toy.tok
           [Toy.ex_cat_dog]).
  - exact Toy_ids_per_token.
  - simpl. lia.
Defined.

(** ** The two orientations with [symmetric] *)

(** X11. With [symmetric] an example is encoded twice, first with
    [text_1] first and then with [text_2] first: when both records are
    kept they are appended in this order, and whatever an example
    appends is the first record, the second, both in this order, or
    nothing. *)
Theorem symmetric_encodes_both_orientations cfg tok ex st :
  symmetric cfg = true ->
  (forall rA rB,
     emits cfg tok ex (role_A_first ex) rA ->
     emits cfg tok ex (role_B_first ex) rB ->
     exists n, example_step cfg tok ex st
               = Ok {| features := features st ++ [rA; rB];
                       num_too_long_exs := n |}) /\
  (forall st', example_step cfg tok ex st = Ok st' ->
     exists la lb,
       features st' = features st ++ la ++ lb /\
       (la = [] \/
        exists rA, la = [rA] /\ emits cfg tok ex (role_A_first ex) rA) /\
       (lb = [] \/
        exists rB, lb = [rB] /\ emits cfg tok ex (role_B_first ex) rB)).
Proof.
  intros Hsym. rewrite example_step_unfold, Hsym. split.
  - intros rA rB (tA & pA & p & lab & HbA & Hp & Hlab & HkA & ->)
                 (tB & pB & p' & lab' & HbB & Hp' & Hlab' & HkB & ->).
    rewrite (encode_orientation_kept _ _ _ _ _ _ _ _ _ HbA Hp Hlab HkA). simpl.
    rewrite (encode_orientation_kept _ _ _ _ _ _ _ _ _ HbB Hp' Hlab' HkB).
    simpl. rewrite <- app_assoc. simpl. by eexists.
  - intros st' Hr. apply bind_Ok in Hr as (s1 & H1 & H2).
    apply encode_orientation_Ok in H1. apply encode_orientation_Ok in H2.
    destruct H1 as [E1 | (rA & HA & E1)], H2 as [E2 | (rB & HB & E2)];
      rewrite E2, E1.
    + exists [], []. rewrite !app_nil_r. repeat split; by left.
    + exists [], [rB]. simpl. repeat split; [by left|]. right. by exists rB.
    + exists [rA], []. rewrite !app_nil_r. repeat split; [|by left].
      right. by exists rA.
    + exists [rA], [rB]. rewrite <- app_assoc. repeat split; right; by eexists.
Qed.

Lemma symmetric_encodes_both_orientations_witness :
  (forall rA rB,
     emits (Toy.with_symmetric (Toy.cfg 16)) Toy.tok Toy.ex_cat_dog
       (role_A_first Toy.ex_cat_dog) rA ->
     emits (Toy.with_symmetric (Toy.cfg 16)) Toy.tok Toy.ex_cat_dog
       (role_B_first Toy.ex_cat_dog) rB ->
     exists n, example_step (Toy.with_symmetric (Toy.cfg 16)) Toy.tok
                 Toy.ex_cat_dog initial_state
               = Ok {| features := features initial_state ++ [rA; rB];
                       num_too_long_exs := n |}) /\
  (forall st',
     example_step (Toy.with_symmetric (Toy.cfg 16)) Toy.tok Toy.ex_cat_dog
       initial_state = Ok st' ->
     exists la lb,
       features st' = features initial_state ++ la ++ lb /\
       (la = [] \/
        exists rA, la = [rA] /\
          emits (Toy.with_symmetric (Toy.cfg 16)) Toy.tok Toy.ex_cat_dog
            (role_A_first Toy.ex_cat_dog) rA) /\
       (lb = [] \/
        exists rB, lb = [rB] /\
          emits (Toy.with_symmetric (Toy.cfg 16)) Toy.tok Toy.ex_cat_dog
            (role_B_first Toy.ex_cat_dog) rB)).
Proof.
  apply (symmetric_encodes_both_orientations
           (Toy.with_symmetric (Toy.cfg 16)) Toy.tok Toy.ex_cat_dog
           initial_state).
  reflexivity.
Defined.

(** ** The three parts of a sentence *)

Lemma substring_empty (p k : nat) : substring p k "" = ""%string.
Proof. by destruct p, k. Qed.

Lemma substring_add (s : string) (p k1 k2 : nat) :
  substring p (k1 + k2) s
  = (substring p k1 s +:+ substring (p + k1) k2 s)%string.
Proof.
  revert p k1. induction s as [|c s IH]; intros p k1.
  - by rewrite !substring_empty.
  - destruct p as [|p]; simpl.
    + destruct k1 as [|k1]; simpl; [done|].
      by rewrite (IH 0%nat k1).
    + apply IH.
Qed.

Lemma substring_all (s : string) : substring 0 (String.length s) s = s.
Proof. induction s as [|c s IH]; simpl; [done | by rewrite IH]. Qed.

(** X12. For a span with [0 <= start <= end], the text before the span,
    the span and the text after it, as lines 176-177 slice them, make up
    the sentence again, also when the bounds pass the end of the
    sentence. *)
Theorem sentence_parts_make_sentence (sent : string) (st end_ : Z) :
  0 <= st <= end_ ->
  (str_upto sent st +:+ str_slice sent st end_ +:+ str_from sent end_)%string
  = sent.
Proof.
  intros Hspan. unfold str_upto, str_slice, str_from, py_bound.
  destruct (st <? 0) eqn:Hst; [apply Z.ltb_lt in Hst; lia|].
  destruct (end_ <? 0) eqn:Hend; [apply Z.ltb_lt in Hend; lia|].
  set (n := String.length sent).
  set (p := Nat.min (Z.to_nat st) n). set (q := Nat.min (Z.to_nat end_) n).
  assert (Hpq : (p <= q /\ q <= n)%nat) by (subst p q; lia).
  assert (Hall : substring 0 (p + ((q - p) + (n - q))) sent
                 = (substring 0 p sent +:+ substring p (q - p) sent
                    +:+ substring q (n - q) sent)%string).
  { rewrite !substring_add. simpl.
    by replace (p + (q - p))%nat with q by lia. }
  rewrite <- Hall.
  replace (p + ((q - p) + (n - q)))%nat with n by lia.
  apply substring_all.
Qed.

Lemma sentence_parts_make_sentence_witness :
  (str_upto "The cat sat" 4 +:+ str_slice "The cat sat" 4 7
   +:+ str_from "The cat sat" 7)%string = "The cat sat"%string.
Proof.
  apply (sentence_parts_make_sentence "The cat sat" 4 7). lia.
Defined.

(** * Further properties of [extract_features] *)

Section Extraction.
Context {T : Type} `{TensorOps T}.

Lemma extract_loop_length cfg (h : Tensor3 T) positions ids fs fs' :
  for_each (extract_example cfg h positions) ids fs = Ok fs' ->
  length fs' = (length fs + length ids)%nat.
Proof.
  revert fs. induction ids as [|i ids IH]; intros fs Hr; simpl in Hr.
  - inversion Hr. simpl. lia.
  - destruct (extract_example cfg h positions i fs) as [fs1|e] eqn:Hstep;
      [|discriminate].
    apply IH in Hr. rewrite Hr. simpl.
    unfold extract_example in Hstep.
    repeat (apply bind_Ok in Hstep as (? & _ & Hstep)).
    inversion Hstep. rewrite length_app. simpl. lia.
Qed.

(** X13. On a well-shaped batch, what [extract_features] returns has one
    row for each example of the batch, which is not empty, and every row
    has the width that the two strategies give: the hidden size, or three
    times it for a combined pooling, then once, twice or three times that
    for the merge. A batch with no example is refused. *)
Theorem extract_features_shape cfg (h : Tensor3 T) positions :
  well_shaped h ->
  (t_bs h = 0%nat ->
   extract_features cfg h positions = Err (TorchError "cat of an empty list"))
  /\
  (forall rows, extract_features cfg h positions = Ok rows ->
     length rows = t_bs h /\ (0 < t_bs h)%nat /\
     Forall (fun row => length row
               = merged_width (target_embeddings cfg)
                   (pooled_width (pool_type cfg) (t_hs h))) rows).
Proof.
  intros Hshape. split.
  - intros Hbs. unfold extract_features. by rewrite Hbs.
  - intros rows Hr.
    pose proof (extract_features_width cfg h positions rows Hshape Hr) as Hw.
    unfold extract_features in Hr.
    apply bind_Ok in Hr as (fs & Hloop & Hr).
    apply extract_loop_length in Hloop. rewrite length_seq in Hloop.
    destruct fs as [|f fs]; [discriminate|]. inversion Hr; subst rows.
    simpl in *. repeat split; [lia | lia | done].
Qed.

(** X14. For the four exact names of [pool_type] and of
    [target_embeddings] and a known loss, the head that [__init__]
    builds takes vectors of exactly the width of the rows that
    [extract_features] returns on a well-shaped batch. *)
Theorem head_fits_extracted_features cfg (h : Tensor3 T) positions rows :
  well_shaped h ->
  pool_type cfg ∈ ["mean"; "max"; "first"; "combined"]%string ->
  target_embeddings cfg
    ∈ ["featwise_mul"; "concat"; "featwise_mul_norm"; "combined"]%string ->
  loss cfg ∈ ["mse_loss"; "crossentropy_loss"]%string ->
  extract_features cfg h positions = Ok rows ->
  exists head,
    init_syn_clf cfg (t_hs h) = Some head /\
    Forall (fun row => length row = dense_in head) rows.
Proof.
  intros Hshape Hp Hm Hl Hr.
  pose proof (extract_features_width cfg h positions rows Hshape Hr) as Hw.
  rewrite <- (head_input_size_matches cfg (t_hs h) Hp Hm) in Hw.
  unfold init_syn_clf.
  apply elem_of_cons in Hl as [-> | Hl]; [by eexists|].
  apply list_elem_of_singleton in Hl as ->. by eexists.
Qed.

Lemma rows_slice_head (m : list (list T)) (start end_ : nat) :
  (start < end_)%nat -> rows_slice m start end_ !! 0%nat = m !! start.
Proof.
  intros Hlt. unfold rows_slice.
  rewrite lookup_drop, Nat.add_0_r. by rewrite lookup_take_lt.
Qed.

(** X15. A combined pooling over two spans with [start < end] is the
    mean pooling, the max pooling and the first pooling of the same
    spans, joined in this order for each span; it fails where the max
    pooling fails, which is when a span starts past the last position. *)
Theorem combined_pooling_joins_the_three (pt : string) (hs : nat)
    (m : list (list T)) (start1 end1 start2 end2 : nat) :
  String.prefix "combined" pt = true ->
  (start1 < end1)%nat -> (start2 < end2)%nat ->
  pool_spans pt hs m start1 end1 start2 end2
  = (mn ← pool_spans "mean" hs m start1 end1 start2 end2;
     mx ← pool_spans "max" hs m start1 end1 start2 end2;
     fs ← pool_spans "first" hs m start1 end1 start2 end2;
     Ok (mn.1 ++ mx.1 ++ fs.1, mn.2 ++ mx.2 ++ fs.2)).
Proof.
  intros Hpre H1 H2.
  assert (String.eqb pt "mean" = false /\ String.eqb pt "max" = false /\
          String.eqb pt "first" = false) as (Hn1 & Hn2 & Hn3).
  { repeat split; apply String.eqb_neq; intros ->; discriminate. }
  pose proof (rows_slice_head m start1 end1 H1) as Hh1.
  pose proof (rows_slice_head m start2 end2 H2) as Hh2.
  unfold pool_spans. rewrite Hn1, Hn2, Hn3, Hpre.
  destruct (rows_slice m start1 end1) as [|r1 sl1]; [done|].
  destruct (rows_slice m start2 end2) as [|r2 sl2]; [done|].
  simpl in Hh1, Hh2. simpl. unfold row_at. by rewrite <- Hh1, <- Hh2.
Qed.

(** X16. On a batch that is not empty, a [target_embeddings] name that
    no branch of the merge matches never gives a result: the error of the
    pooling of the first example is raised if there is one (so a wrong
    [pool_type] is the error reported), and otherwise the unbound
    [merged_feature] of line 150. *)
Theorem unmatched_merge_type_never_returns cfg (h : Tensor3 T) positions n m
    start1 end1 start2 end2 :
  t_bs h = S n ->
  item positions 0 0 = Ok start1 -> item positions 0 1 = Ok end1 ->
  item positions 0 2 = Ok start2 -> item positions 0 3 = Ok end2 ->
  example_rows h 0 = Ok m ->
  target_embeddings cfg <> "featwise_mul"%string ->
  target_embeddings cfg <> "concat"%string ->
  target_embeddings cfg <> "featwise_mul_norm"%string ->
  String.prefix "combined" (target_embeddings cfg) = false ->
  extract_features cfg h positions
  = (embs ← pool_spans (pool_type cfg) (t_hs h) m start1 end1 start2 end2;
     Err (UnboundLocalError "merged_feature")).
Proof.
  intros Hbs H0 H1 H2 H3 Hm Hn1 Hn2 Hn3 Hpre.
  unfold extract_features. rewrite Hbs. simpl.
  unfold extract_example. rewrite H0, H1, H2, H3, Hm. simpl.
  destruct (pool_spans _ _ _ _ _ _ _) as [embs|e]; simpl; [|done].
  by rewrite merge_no_branch.
Qed.

End Extraction.

Lemma extract_features_shape_witness :
  (t_bs Toy.hidden = 0%nat ->
   extract_features (Toy.cfg 16) Toy.hidden Toy.table
   = Err (TorchError "cat of an empty list")) /\
  (forall rows,
     extract_features (Toy.cfg 16) Toy.hidden Toy.table = Ok rows ->
     length rows = t_bs Toy.hidden /\ (0 < t_bs Toy.hidden)%nat /\
     Forall (fun row => length row
               = merged_width (target_embeddings (Toy.cfg 16))
                   (pooled_width (pool_type (Toy.cfg 16)) (t_hs Toy.hidden)))
       rows).
Proof.
  apply (extract_features_shape (Toy.cfg 16) Toy.hidden Toy.table).
  split; [reflexivity|].
  repeat constructor.
Defined.

Lemma head_fits_extracted_features_witness :
  exists head,
    init_syn_clf (Toy.cfg 16) (t_hs Toy.hidden) = Some head /\
    Forall (fun row => length row = dense_in head) [[1; 2; 3; 4]].
Proof.
  apply (head_fits_extracted_features (Toy.cfg 16) Toy.hidden Toy.table
           [[1; 2; 3; 4]]).
  - split; [reflexivity|]. repeat constructor.
  - simpl. do 2 right. left.
  - simpl. right. left.
  - simpl. right. left.
  - vm_compute. reflexivity.
Defined.

Lemma combined_pooling_joins_the_three_witness :
  pool_spans "combined_v2" 2 [[1; 2]; [3; 4]; [5; 6]] 0 1 1 3
  = (mn ← pool_spans "mean" 2 [[1; 2]; [3; 4]; [5; 6]] 0 1 1 3;
     mx ← pool_spans "max" 2 [[1; 2]; [3; 4]; [5; 6]] 0 1 1 3;
     fs ← pool_spans "first" 2 [[1; 2]; [3; 4]; [5; 6]] 0 1 1 3;
     Ok (mn.1 ++ mx.1 ++ fs.1, mn.2 ++ mx.2 ++ fs.2)).
Proof.
  apply (combined_pooling_joins_the_three "combined_v2" 2
           [[1; 2]; [3; 4]; [5; 6]] 0 1 1 3).
  - reflexivity.
  - lia.
  - lia.
Defined.

Lemma unmatched_merge_type_never_returns_witness :
  extract_features (with_strategies (Toy.cfg 16) "first" "sum")
    Toy.hidden Toy.table
  = (embs ← pool_spans (pool_type (with_strategies (Toy.cfg 16) "first" "sum"))
              (t_hs Toy.hidden) [[1; 2]; [3; 4]; [5; 6]] 0 1 1 3;
     Err (UnboundLocalError "merged_feature")).
Proof.
  apply (unmatched_merge_type_never_returns
           (with_strategies (Toy.cfg 16) "first" "sum") Toy.hidden Toy.table
           0 [[1; 2]; [3; 4]; [5; 6]] 0 1 1 3).
  - reflexivity.
  - reflexivity.
  - reflexivity.
  - reflexivity.
  - reflexivity.
  - reflexivity.
  - discriminate.
  - discriminate.
  - discriminate.
  - reflexivity.
Defined.

(** * Properties of [forward] *)

Section ForwardProperties.
Context {T : Type} `{TensorOps T} {L Inputs : Type}.
Variable roberta : Inputs -> result (Tensor3 T).
Variable clf_layers : RobertaClassificationHead -> list (list T)
                      -> list (list T).
Variable mse_loss : list (list T) -> L -> result T.
Variable cross_entropy_loss : list (list T) -> L -> result T.

(** X17. [forward] reads the labels before it extracts anything: once
    the encoder has returned, a call without [input_labels] (the default)
    raises [TypeError], and a dictionary without 'syn_labels' or
    without 'positions' raises [KeyError] with that key, whatever the
    configuration and the hidden states are. *)
Theorem forward_needs_labels cfg hidden_size inputs h :
  roberta inputs = Ok h ->
  forward roberta clf_layers mse_loss cross_entropy_loss cfg hidden_size
    inputs None
    = Failed (TypeError "'NoneType' object is not subscriptable") /\
  (forall labels : InputLabels L,
     syn_labels labels = None ->
     forward roberta clf_layers mse_loss cross_entropy_loss cfg hidden_size
    inputs (Some labels)
     = Failed (Raised (KeyError "syn_labels"))) /\
  (forall labels : InputLabels L,
     is_Some (syn_labels labels) -> label_positions labels = None ->
     forward roberta clf_layers mse_loss cross_entropy_loss cfg hidden_size
    inputs (Some labels)
     = Failed (Raised (KeyError "positions"))).
Proof.
  intros Hh. unfold forward. rewrite Hh. split; [done|]. split.
  - by intros labels ->.
  - by intros labels [labs ->] ->.
Qed.

(** X18. When [forward] returns, its loss dictionary has the one entry
    'total', and the loss is the one of the configuration: the
    mean-squared error for "mse_loss" and the cross-entropy for
    "crossentropy_loss", of the returned logits and the given labels. *)
Theorem forward_loss_follows_configuration cfg hidden_size inputs
    input_labels losses logits :
  forward roberta clf_layers mse_loss cross_entropy_loss cfg hidden_size
    inputs input_labels = Returned (losses, logits) ->
  exists labels labs total,
    input_labels = Some labels /\ syn_labels labels = Some labs /\
    losses = <["total"%string := total]> ∅ /\
    ((loss cfg = "mse_loss"%string /\ mse_loss logits labs = Ok total) \/
     (loss cfg = "crossentropy_loss"%string /\
      cross_entropy_loss logits labs = Ok total)).
Proof.
  unfold forward, init_syn_clf. intros Hr.
  destruct (roberta inputs) as [h|e]; [|discriminate].
  destruct input_labels as [labels|]; [|discriminate].
  destruct (syn_labels labels) as [labs|] eqn:Hlabs; [|discriminate].
  destruct (label_positions labels) as [ps|]; [|discriminate].
  destruct (extract_features cfg h ps) as [feats|e]; [|discriminate].
  destruct (String.eqb_spec (loss cfg) "mse_loss") as [Hmse|_].
  - destruct (syn_clf_forward _ _ _) as [lg|e]; [|discriminate].
    simpl in Hr. destruct (mse_loss lg labs) as [v|e] eqn:Hv; [|discriminate].
    inversion Hr; subst. exists labels, labs, v. repeat split; try done.
    by left.
  - destruct (String.eqb_spec (loss cfg) "crossentropy_loss") as [Hce|_];
      [|discriminate].
    destruct (syn_clf_forward _ _ _) as [lg|e]; [|discriminate].
    simpl in Hr.
    destruct (cross_entropy_loss lg labs) as [v|e] eqn:Hv; [|discriminate].
    inversion Hr; subst. exists labels, labs, v. repeat split; try done.
    by right.
Qed.

Lemma syn_clf_forward_fits head (features : list (list T)) :
  Forall (fun row => length row = dense_in head) features ->
  syn_clf_forward clf_layers head features = Ok (clf_layers head features).
Proof.
  intros Hall. unfold syn_clf_forward.
  replace (forallb _ features) with true; [done|].
  symmetry. apply forallb_forall. intros row Hrow.
  apply Nat.eqb_eq. rewrite Forall_forall in Hall.
  apply Hall. by apply list_elem_of_In.
Qed.

Lemma syn_clf_forward_misfit head (features : list (list T)) row :
  row ∈ features -> length row <> dense_in head ->
  syn_clf_forward clf_layers head features
  = Err (TorchError "mat1 and mat2 shapes cannot be multiplied").
Proof.
  intros Hrow Hne. unfold syn_clf_forward.
  destruct (forallb _ features) eqn:Hall; [|done].
  rewrite forallb_forall in Hall.
  apply list_elem_of_In, Hall, Nat.eqb_eq in Hrow. done.
Qed.

(** X19. A [pool_type] that begins with "combined" without being
    "combined" makes every call of [forward] fail: on well-shaped hidden
    states of the hidden size of the configuration, the extracted
    vectors are wider than the head that [__init__] built, and its first
    layer refuses them when nothing was raised before. *)
Theorem forward_fails_for_combined_prefix cfg hidden_size inputs h
    input_labels :
  roberta inputs = Ok h -> well_shaped h ->
  t_hs h = hidden_size -> (0 < hidden_size)%nat ->
  String.prefix "combined" (pool_type cfg) = true ->
  pool_type cfg <> "combined"%string ->
  (exists e,
     forward roberta clf_layers mse_loss cross_entropy_loss cfg hidden_size
       inputs input_labels = Failed e) /\
  (forall labels labs positions features head,
     input_labels = Some labels -> syn_labels labels = Some labs ->
     label_positions labels = Some positions ->
     extract_features cfg h positions = Ok features ->
     init_syn_clf cfg hidden_size = Some head ->
     forward roberta clf_layers mse_loss cross_entropy_loss cfg hidden_size
    inputs input_labels
     = Failed (Raised (TorchError
                         "mat1 and mat2 shapes cannot be multiplied"))).
Proof.
  intros Hh Hshape Hhs Hpos Hpre Hne.
  assert (Hmis : forall positions features head,
            extract_features cfg h positions = Ok features ->
            init_syn_clf cfg hidden_size = Some head ->
            syn_clf_forward clf_layers head features
            = Err (TorchError "mat1 and mat2 shapes cannot be multiplied")).
  { intros ps feats head Hf Hhead.
    pose proof (extract_features_width cfg h ps feats Hshape Hf) as Hw.
    destruct feats as [|row feats].
    { unfold extract_features in Hf. apply bind_Ok in Hf as (fs & _ & Hf).
      by destruct fs. }
    apply (syn_clf_forward_misfit head _ row); [left|].
    apply Forall_cons in Hw as [Hw _]. rewrite Hw, Hhs.
    pose proof (head_input_size_too_small cfg hidden_size Hpre Hne Hpos) as Hlt.
    unfold init_syn_clf in Hhead.
    destruct (String.eqb (loss cfg) "mse_loss");
      [|destruct (String.eqb (loss cfg) "crossentropy_loss")];
      inversion Hhead; subst head; simpl; lia. }
  split.
  - unfold forward. rewrite Hh.
    destruct input_labels as [labels|]; [|by eexists].
    destruct (syn_labels labels) as [labs|]; [|by eexists].
    destruct (label_positions labels) as [ps|]; [|by eexists].
    destruct (extract_features cfg h ps) as [feats|e] eqn:Hf; [|by eexists].
    pose proof (Hmis ps feats) as Hmis'.
    destruct (init_syn_clf cfg hidden_size) as [head|]; [|by eexists].
    rewrite (Hmis' head Hf eq_refl). by eexists.
  - intros labels labs ps feats head -> Hlabs Hps Hf Hhead.
    unfold forward. rewrite Hh, Hlabs, Hps, Hf, Hhead.
    by rewrite (Hmis ps feats head Hf Hhead).
Qed.

(** X20. With the exact names of the two strategies and a known loss,
    the head accepts what [extract_features] returns on well-shaped
    hidden states of the hidden size of the configuration: [forward]
    returns the logits of the head layers on these features with the
    loss, or raises what the loss raises. *)
Theorem forward_returns_for_exact_names cfg hidden_size inputs h labels labs
    positions features :
  roberta inputs = Ok h -> well_shaped h -> t_hs h = hidden_size ->
  pool_type cfg ∈ ["mean"; "max"; "first"; "combined"]%string ->
  target_embeddings cfg
    ∈ ["featwise_mul"; "concat"; "featwise_mul_norm"; "combined"]%string ->
  loss cfg ∈ ["mse_loss"; "crossentropy_loss"]%string ->
  syn_labels labels = Some labs ->
  label_positions labels = Some positions ->
  extract_features cfg h positions = Ok features ->
  exists head,
    init_syn_clf cfg hidden_size = Some head /\
    forward roberta clf_layers mse_loss cross_entropy_loss cfg hidden_size
    inputs (Some labels)
    = match (if String.eqb (loss cfg) "mse_loss"
             then mse_loss (clf_layers head features) labs
             else cross_entropy_loss (clf_layers head features) labs) with
      | Ok v => Returned (<["total"%string := v]> ∅, clf_layers head features)
      | Err e => Failed (Raised e)
      end.
Proof.
  intros Hh Hshape Hhs Hp Hm Hl Hlabs Hps Hf.
  pose proof (extract_features_width cfg h positions features Hshape Hf)
    as Hfit.
  rewrite <- (head_input_size_matches cfg (t_hs h) Hp Hm), Hhs in Hfit.
  destruct (init_syn_clf cfg hidden_size) as [head|] eqn:Hhead.
  - exists head. split; [done|].
    assert (Hin : dense_in head = head_input_size cfg hidden_size).
    { unfold init_syn_clf in Hhead.
      destruct (String.eqb (loss cfg) "mse_loss");
        [|destruct (String.eqb (loss cfg) "crossentropy_loss")];
        by inversion Hhead. }
    rewrite <- Hin in Hfit.
    unfold forward. rewrite Hh, Hlabs, Hps, Hf, Hhead.
    rewrite (syn_clf_forward_fits head features Hfit).
    unfold init_syn_clf in Hhead.
    destruct (String.eqb (loss cfg) "mse_loss").
    + by inversion Hhead.
    + destruct (String.eqb (loss cfg) "crossentropy_loss"); [|discriminate].
      by inversion Hhead.
  - exfalso. unfold init_syn_clf in Hhead.
    apply elem_of_cons in Hl as [Hl | Hl].
    + by rewrite Hl in Hhead.
    + apply list_elem_of_singleton in Hl. by rewrite Hl in Hhead.
Qed.

End ForwardProperties.

Lemma Toy_hidden_well_shaped : well_shaped Toy.hidden.
Proof. split; [reflexivity|]. repeat constructor. Qed.

Lemma forward_needs_labels_witness :
  forward ToyForward.roberta ToyForward.clf_layers ToyForward.mse_loss
    ToyForward.cross_entropy_loss (Toy.cfg 16) 2 tt None
    = Failed (TypeError "'NoneType' object is not subscriptable") /\
  (forall labels : InputLabels (list Z),
     syn_labels labels = None ->
     forward ToyForward.roberta ToyForward.clf_layers ToyForward.mse_loss
       ToyForward.cross_entropy_loss (Toy.cfg 16) 2 tt (Some labels)
     = Failed (Raised (KeyError "syn_labels"))) /\
  (forall labels : InputLabels (list Z),
     is_Some (syn_labels labels) -> label_positions labels = None ->
     forward ToyForward.roberta ToyForward.clf_layers ToyForward.mse_loss
       ToyForward.cross_entropy_loss (Toy.cfg 16) 2 tt (Some labels)
     = Failed (Raised (KeyError "positions"))).
Proof.
  apply (forward_needs_labels ToyForward.roberta ToyForward.clf_layers
           ToyForward.mse_loss ToyForward.cross_entropy_loss
           (Toy.cfg 16) 2 tt Toy.hidden).
  reflexivity.
Defined.

Lemma forward_loss_follows_configuration_witness :
  exists labels labs total,
    Some ToyForward.labels = Some labels /\ syn_labels labels = Some labs /\
    <["total"%string := 10]> (∅ : gmap string Z)
      = <["total"%string := total]> ∅ /\
    ((loss (Toy.cfg 16) = "mse_loss"%string /\
      ToyForward.mse_loss [[10; 10]] labs = Ok total) \/
     (loss (Toy.cfg 16) = "crossentropy_loss"%string /\
      ToyForward.cross_entropy_loss [[10; 10]] labs = Ok total)).
Proof.
  apply (forward_loss_follows_configuration ToyForward.roberta
           ToyForward.clf_layers ToyForward.mse_loss
           ToyForward.cross_entropy_loss (Toy.cfg 16) 2 tt
           (Some ToyForward.labels)).
  vm_compute. reflexivity.
Defined.

Lemma forward_fails_for_combined_prefix_witness :
  (exists e,
     forward ToyForward.roberta ToyForward.clf_layers ToyForward.mse_loss
       ToyForward.cross_entropy_loss
       (with_strategies (Toy.cfg 16) "combined_v2" "concat") 2 tt
       (Some ToyForward.labels) = Failed e) /\
  (forall labels labs positions features head,
     Some ToyForward.labels = Some labels -> syn_labels labels = Some labs ->
     label_positions labels = Some positions ->
     extract_features (with_strategies (Toy.cfg 16) "combined_v2" "concat")
       Toy.hidden positions = Ok features ->
     init_syn_clf (with_strategies (Toy.cfg 16) "combined_v2" "concat") 2
       = Some head ->
     forward ToyForward.roberta ToyForward.clf_layers ToyForward.mse_loss
       ToyForward.cross_entropy_loss
       (with_strategies (Toy.cfg 16) "combined_v2" "concat") 2 tt
       (Some ToyForward.labels)
     = Failed (Raised (TorchError
                         "mat1 and mat2 shapes cannot be multiplied"))).
Proof.
  apply (forward_fails_for_combined_prefix ToyForward.roberta
           ToyForward.clf_layers ToyForward.mse_loss
           ToyForward.cross_entropy_loss
           (with_strategies (Toy.cfg 16) "combined_v2" "concat") 2 tt
           Toy.hidden (Some ToyForward.labels)).
  - reflexivity.
  - exact Toy_hidden_well_shaped.
  - reflexivity.
  - lia.
  - reflexivity.
  - discriminate.
Defined.

Lemma forward_returns_for_exact_names_witness :
  exists head,
    init_syn_clf (Toy.cfg 16) 2 = Some head /\
    forward ToyForward.roberta ToyForward.clf_layers ToyForward.mse_loss
      ToyForward.cross_entropy_loss (Toy.cfg 16) 2 tt (Some ToyForward.labels)
    = match (if String.eqb (loss (Toy.cfg 16)) "mse_loss"
             then ToyForward.mse_loss
                    (ToyForward.clf_layers head [[1; 2; 3; 4]]) [1]
             else ToyForward.cross_entropy_loss
                    (ToyForward.clf_layers head [[1; 2; 3; 4]]) [1]) with
      | Ok v => Returned (<["total"%string := v]> ∅,
                          ToyForward.clf_layers head [[1; 2; 3; 4]])
      | Err e => Failed (Raised e)
      end.
Proof.
  apply (forward_returns_for_exact_names ToyForward.roberta
           ToyForward.clf_layers ToyForward.mse_loss
           ToyForward.cross_entropy_loss (Toy.cfg 16) 2 tt Toy.hidden
           ToyForward.labels [1] Toy.table [[1; 2; 3; 4]]).
  - reflexivity.
  - exact Toy_hidden_well_shaped.
  - reflexivity.
  - simpl. do 2 right. left.
  - simpl. right. left.
  - simpl. right. left.
  - reflexivity.
  - reflexivity.
  - vm_compute. reflexivity.
Defined.
